(** * Naive Bayes text classifier (src/NaiveBayes.js): a shallow embedding

    The JavaScript class [NaiveBayes] is embedded method by method.  The
    instance fields become a record, every method becomes a computation in
    a small state-and-exception monad over that record, and the JavaScript
    objects the class uses as dictionaries become property lists with the
    lookup, assignment and [for ... in] enumeration of the language.

    Modelling conventions.
    - The counters ([classTotals], the per-class feature counts,
      [totalExamples]) are JavaScript numbers that only ever hold small
      non-negative integers; they are modelled by [N], exact below 2^53,
      with an explicit [NaN] for arithmetic on a missing property.
    - The scores computed by [probabilityOfClass] are IEEE-754 doubles
      produced by [Math.log] and [Math.exp].  They are kept abstract: the
      class [JSNumber] lists the operations the code uses, and each theorem
      that needs a fact about them states it as a law.
    - Dictionaries are plain objects.  Only own properties are modelled;
      keys are assumed not to name members of [Object.prototype].
    - The stemmer ([PorterStemmer.tokenizeAndStem]) lives outside this
      file and is a parameter of the development. *)

From Stdlib Require Import List String Ascii Bool Arith NArith ZArith Lia.
From Stdlib Require Import DecimalString DecimalNat Permutation Sorted.
From Stdlib Require Import Reals Lra.
Import ListNotations.

Local Open Scope string_scope.
Local Open Scope list_scope.

(** ** JavaScript values that reach the classifier *)

(** The values a caller can pass where a document is expected.  [JObject]
    stands for a plain object without a [length] property; arrays carry
    their elements. *)
Inductive jsval (E : Type) : Type :=
| JUndefined
| JNull
| JBoolean (b : bool)
| JNumber (z : Z)
| JString (s : string)
| JArray (a : list E)
| JObject.

Arguments JUndefined {E}.
Arguments JNull {E}.
Arguments JBoolean {E} b.
Arguments JNumber {E} z.
Arguments JString {E} s.
Arguments JArray {E} a.
Arguments JObject {E}.

(** Exceptions: the one [throw] statement of the class, and the TypeError
    the runtime raises when a property of [null]/[undefined] is read or a
    missing method is called. *)
Inductive exn : Type := NotTrained | TypeError.

Inductive outcome (A : Type) : Type :=
| Return (a : A)
| Throw (e : exn).

Arguments Return {A} a.
Arguments Throw {A} e.

(** A counter held in a JavaScript number. *)
Inductive jsnum : Type := Int (n : N) | NaN.

(** [x++] on a counter. *)
Definition incr (x : jsnum) : jsnum :=
  match x with
  | Int n => Int (n + 1)%N
  | NaN => NaN
  end.

(** ** Plain objects used as dictionaries *)

Module JsObject.

(** Own properties in creation order. *)
Definition t (V : Type) : Type := list (string * V).

Definition empty {V : Type} : t V := [].

(** [o[k]]: [None] is [undefined]. *)
Fixpoint get {V : Type} (o : t V) (k : string) : option V :=
  match o with
  | [] => None
  | (k', v) :: o' => if String.eqb k k' then Some v else get o' k
  end.

(** [o[k] = v]: an existing property keeps its place, a new one is
    created last. *)
Fixpoint set {V : Type} (o : t V) (k : string) (v : V) : t V :=
  match o with
  | [] => [(k, v)]
  | (k', v') :: o' =>
      if String.eqb k k' then (k', v) :: o' else (k', v') :: set o' k v
  end.

Definition digit (c : ascii) : option N :=
  let n := N_of_ascii c in
  if ((48 <=? n) && (n <=? 57))%N then Some (n - 48)%N else None.

Fixpoint digits (s : string) (acc : N) : option N :=
  match s with
  | EmptyString => Some acc
  | String c s' =>
      match digit c with
      | Some d => digits s' (10 * acc + d)%N
      | None => None
      end
  end.

(** A key is an array index when it is the canonical decimal numeral of
    an integer below 2^32 - 1. *)
Definition array_index (k : string) : option N :=
  match k with
  | EmptyString => None
  | String "0" EmptyString => Some 0%N
  | String "0" _ => None
  | _ =>
      match digits k 0 with
      | Some n => if (n <? 2 ^ 32 - 1)%N then Some n else None
      | None => None
      end
  end.

Definition is_index (k : string) : bool :=
  match array_index k with Some _ => true | None => false end.

Fixpoint insert_index (n : N) (k : string) (l : list (N * string))
  : list (N * string) :=
  match l with
  | [] => [(n, k)]
  | (m, k') :: l' =>
      if (n <=? m)%N then (n, k) :: l else (m, k') :: insert_index n k l'
  end.

Fixpoint index_keys {V : Type} (o : t V) : list (N * string) :=
  match o with
  | [] => []
  | (k, _) :: o' =>
      match array_index k with
      | Some n => insert_index n k (index_keys o')
      | None => index_keys o'
      end
  end.

Definition name_keys {V : Type} (o : t V) : list string :=
  filter (fun k => negb (is_index k)) (map fst o).

(** The order in which [for (k in o)] visits the own properties: array
    indices in ascending numeric order, then the other keys in creation
    order. *)
Definition keys {V : Type} (o : t V) : list string :=
  map snd (index_keys o) ++ name_keys o.

End JsObject.

(** [String(i)] for an array position [i], as used by [o[i]]. *)
Definition index_key (i : nat) : string :=
  NilEmpty.string_of_uint (Nat.to_uint i).

(** ** The numbers of the scorer

    The operations [probabilityOfClass] and the comparator of
    [getClassifications] apply to doubles.  [of_N] is the double of an
    integer-valued counter and [nan] the result of arithmetic on
    [undefined]. *)

Class JSNumber : Type := {
  num : Type;
  of_N : N -> num;
  nan : num;
  nadd : num -> num -> num;
  nsub : num -> num -> num;
  nmul : num -> num -> num;
  ndiv : num -> num -> num;
  Math_log : num -> num;
  Math_exp : num -> num;
  (** [0 < d] *)
  positive : num -> bool;
  (** [a < b] *)
  nltb : num -> num -> bool
}.

(** The facts about doubles the proofs rely on.  Each holds of IEEE-754
    binary64 arithmetic for all values, [NaN] and the infinities included:
    [Math.exp(+0)] is specified to be 1, a product with 1 is exact, a
    difference of two doubles that are not equal never rounds to zero, and
    comparisons with [NaN] are false. *)
Class JSNumberLaws (Num : JSNumber) : Prop := {
  (** [Math.exp(0)] is 1. *)
  Math_exp_0 : Math_exp (of_N 0) = of_N 1;
  (** Multiplying by 1 is exact. *)
  nmul_1_r : forall x : num, nmul x (of_N 1) = x;
  (** [b - a] is positive exactly when [a < b]. *)
  positive_nsub : forall a b : num, positive (nsub b a) = nltb a b;
  (** [a < b] and [b < a] exclude each other. *)
  nltb_asym : forall a b : num, nltb a b = true -> nltb b a = false
}.

(** ** Classifier state *)

(** An entry of the document log: [{label: label, value: doc}]. *)
Record docObj : Type := {
  doc_label : string;
  doc_value : jsval string
}.

(** The instance fields set up by the constructor. *)
Record NaiveBayes : Type := {
  docs : list docObj;
  lastAdded : nat;
  features : JsObject.t N;
  classFeatures : JsObject.t (JsObject.t jsnum);
  classTotals : JsObject.t jsnum;
  totalExamples : N;
  smoothing : N
}.

Definition constructor : NaiveBayes := {|
  docs := [];
  lastAdded := 0;
  features := JsObject.empty;
  classFeatures := JsObject.empty;
  classTotals := JsObject.empty;
  totalExamples := 1;
  smoothing := 1
|}.

Definition set_docs (f : list docObj -> list docObj) (s : NaiveBayes) :=
  {| docs := f (docs s); lastAdded := lastAdded s; features := features s;
     classFeatures := classFeatures s; classTotals := classTotals s;
     totalExamples := totalExamples s; smoothing := smoothing s |}.

Definition set_lastAdded (f : nat -> nat) (s : NaiveBayes) :=
  {| docs := docs s; lastAdded := f (lastAdded s); features := features s;
     classFeatures := classFeatures s; classTotals := classTotals s;
     totalExamples := totalExamples s; smoothing := smoothing s |}.

Definition set_features (f : JsObject.t N -> JsObject.t N) (s : NaiveBayes) :=
  {| docs := docs s; lastAdded := lastAdded s; features := f (features s);
     classFeatures := classFeatures s; classTotals := classTotals s;
     totalExamples := totalExamples s; smoothing := smoothing s |}.

Definition set_classFeatures
  (f : JsObject.t (JsObject.t jsnum) -> JsObject.t (JsObject.t jsnum))
  (s : NaiveBayes) :=
  {| docs := docs s; lastAdded := lastAdded s; features := features s;
     classFeatures := f (classFeatures s); classTotals := classTotals s;
     totalExamples := totalExamples s; smoothing := smoothing s |}.

Definition set_classTotals (f : JsObject.t jsnum -> JsObject.t jsnum)
  (s : NaiveBayes) :=
  {| docs := docs s; lastAdded := lastAdded s; features := features s;
     classFeatures := classFeatures s; classTotals := f (classTotals s);
     totalExamples := totalExamples s; smoothing := smoothing s |}.

Definition set_totalExamples (f : N -> N) (s : NaiveBayes) :=
  {| docs := docs s; lastAdded := lastAdded s; features := features s;
     classFeatures := classFeatures s; classTotals := classTotals s;
     totalExamples := f (totalExamples s); smoothing := smoothing s |}.

(** ** Methods run in a state-and-exception monad

    A thrown exception leaves the assignments made before it in place, so
    the state is returned on both outcomes. *)

Definition M (A : Type) : Type := NaiveBayes -> outcome A * NaiveBayes.

Definition ret {A : Type} (a : A) : M A := fun s => (Return a, s).

Definition throw {A : Type} (e : exn) : M A := fun s => (Throw e, s).

Definition bind {A B : Type} (m : M A) (k : A -> M B) : M B :=
  fun s =>
    match m s with
    | (Return a, s') => k a s'
    | (Throw e, s') => (Throw e, s')
    end.

(** Read [this.f]. *)
Definition gets {A : Type} (f : NaiveBayes -> A) : M A :=
  fun s => (Return (f s), s).

(** Assign to a field of [this]. *)
Definition modify (f : NaiveBayes -> NaiveBayes) : M unit :=
  fun s => (Return tt, f s).

(** An expression that may fault but does not touch [this]. *)
Definition lift {A : Type} (o : outcome A) : M A := fun s => (o, s).

Declare Scope js_scope.
Delimit Scope js_scope with js.
Notation "x <- m ;; k" := (bind m (fun x => k))
  (at level 61, m at next level, right associativity) : js_scope.
Notation "m ;; k" := (bind m (fun _ => k))
  (at level 61, right associativity) : js_scope.
Local Open Scope js_scope.

(** [for (x of l) body(x)], also used for [for (k in o)] over [keys o]. *)
Fixpoint for_each {A : Type} (l : list A) (body : A -> M unit) : M unit :=
  match l with
  | [] => ret tt
  | x :: l' => body x ;; for_each l' body
  end.

(** [for (let i = lo; i < hi; i++) body(i)]. *)
Definition for_range (lo hi : nat) (body : nat -> M unit) : M unit :=
  for_each (seq lo (hi - lo)) body.

(** [acc = []; for (x of l) acc.push(f(x))]. *)
Fixpoint for_push {A B : Type} (l : list A) (f : A -> M B) : M (list B) :=
  match l with
  | [] => ret []
  | x :: l' => y <- f x ;; ys <- for_push l' f ;; ret (y :: ys)
  end.

(** [for (x of l) acc = body(x, acc)]. *)
Fixpoint for_fold {A B : Type} (l : list A) (body : A -> B -> M B) (acc : B)
  : M B :=
  match l with
  | [] => ret acc
  | x :: l' => acc' <- body x acc ;; for_fold l' body acc'
  end.

(** [while (i--) acc = body(i, acc)], started with [i = n]. *)
Fixpoint while_dec {A : Type} (n : nat) (body : nat -> A -> M A) (acc : A)
  : M A :=
  match n with
  | O => ret acc
  | S i => acc' <- body i acc ;; while_dec i body acc'
  end.

(** ** Helper utils *)

Definition _isString {E : Type} (s : jsval E) : bool :=
  match s with JString _ => true | _ => false end.

Definition _isArray {E : Type} (s : jsval E) : bool :=
  match s with JArray _ => true | _ => false end.

(** [typeof s === 'object' || s instanceof Object]; [typeof null] is
    ['object']. *)
Definition _isObject {E : Type} (s : jsval E) : bool :=
  match s with JNull | JArray _ | JObject => true | _ => false end.

(** [s.length]; [None] is [undefined]. *)
Definition length_of {E : Type} (s : jsval E) : outcome (option nat) :=
  match s with
  | JUndefined | JNull => Throw TypeError
  | JString s => Return (Some (String.length s))
  | JArray a => Return (Some (List.length a))
  | JBoolean _ | JNumber _ | JObject => Return None
  end.

Definition _size {E : Type} (s : jsval E) : outcome (option nat) :=
  if _isArray s || _isString s || _isObject s then length_of s
  else Return (Some 0).

(** [!x] for the result of [_size]. *)
Definition not_size (x : option nat) : bool :=
  match x with
  | None | Some O => true
  | Some (S _) => false
  end.

(** The elements [doc[0]], ..., [doc[doc.length - 1]] visited by a loop
    bounded by [doc.length]; a value without a length gives no
    iteration. *)
Definition elements {E : Type} (doc : jsval E) : outcome (list E) :=
  match doc with
  | JUndefined | JNull => Throw TypeError
  | JArray a => Return a
  | _ => Return []
  end.

Fixpoint index_from (a : list string) (x : string) (i : Z) : Z :=
  match a with
  | [] => (-1)%Z
  | y :: a' => if String.eqb y x then i else index_from a' x (i + 1)%Z
  end.

(** [doc.indexOf(x)]. *)
Definition indexOf (doc : jsval string) (x : string) : outcome Z :=
  match doc with
  | JArray a => Return (index_from a x 0)
  | JString s =>
      Return (match String.index 0 x s with
              | Some i => Z.of_nat i
              | None => (-1)%Z
              end)
  | _ => Throw TypeError
  end.

(** Truthiness of an integer and [Number(b)]. *)
Definition truthy_Z (z : Z) : bool := negb (Z.eqb z 0).

Definition Number (b : bool) : Z := if b then 1%Z else 0%Z.

(** Truthiness of a counter read from an object. *)
Definition truthy (x : option jsnum) : bool :=
  match x with
  | Some (Int n) => negb (N.eqb n 0)
  | _ => false
  end.

(** [ToNumber] of a counter read from an object. *)
Definition to_jsnum (x : option jsnum) : jsnum :=
  match x with
  | Some c => c
  | None => NaN
  end.

(** The argument of [addExample] and [probabilityOfClass]: a positional
    vector, or anything else, enumerated with [for ... in]. *)
Inductive featureArg : Type :=
| FArray (v : list Z)
| FMapping (m : JsObject.t string).

Section Classifier.

Context {Num : JSNumber}.
Variable tokenizeAndStem : string -> list string.

Definition addDocument (doc : jsval string) (label : string) : M unit :=
  sz <- lift (_size doc) ;;
  if not_size sz then ret tt
  else
    let doc :=
      match doc with
      | JString s => JArray (tokenizeAndStem s)
      | _ => doc
      end in
    let docObj := {| doc_label := label; doc_value := doc |} in
    modify (set_docs (fun d => d ++ [docObj])) ;;
    stems <- lift (elements doc) ;;
    for_each stems
      (fun stem => modify (set_features (fun f => JsObject.set f stem 1%N))).

Definition addDocuments (docs : list (jsval string)) (label : string)
  : M unit :=
  for_each docs (fun doc => addDocument doc label).

Definition docToFeatures (doc : jsval string) : M (list Z) :=
  let doc :=
    match doc with
    | JString s => JArray (tokenizeAndStem s)
    | _ => doc
    end in
  fs <- gets features ;;
  for_push (JsObject.keys fs)
    (fun feature =>
       i <- lift (indexOf doc feature) ;;
       ret (Number (negb (negb (truthy_Z (Z.lnot i)))))).

(** [this.classFeatures[label]], about to be indexed. *)
Definition class_counts (label : string) : M (JsObject.t jsnum) :=
  cf <- gets classFeatures ;;
  match JsObject.get cf label with
  | Some o => ret o
  | None => throw TypeError
  end.

(** [this.classFeatures[label][key]]. *)
Definition get_count (label key : string) : M (option jsnum) :=
  o <- class_counts label ;;
  ret (JsObject.get o key).

(** [this.classFeatures[label][key] = c]. *)
Definition set_count (label key : string) (c : jsnum) : M unit :=
  o <- class_counts label ;;
  modify (set_classFeatures
            (fun cf => JsObject.set cf label (JsObject.set o key c))).

(** The body shared by both loops of [addExample]. *)
Definition bump (label key : string) : M unit :=
  c <- get_count label key ;;
  if truthy c then set_count label key (incr (to_jsnum c))
  else
    sm <- gets smoothing ;;
    set_count label key (Int (1 + sm)%N).

Definition addExample (docFeatures : featureArg) (label : string) : M unit :=
  cf <- gets classFeatures ;;
  match JsObject.get cf label with
  | None =>
      modify (set_classFeatures
                (fun cf => JsObject.set cf label JsObject.empty)) ;;
      modify (set_classTotals (fun ct => JsObject.set ct label (Int 1)))
  | Some _ => ret tt
  end ;;
  modify (set_totalExamples (fun n => n + 1)%N) ;;
  match docFeatures with
  | FArray v =>
      modify (set_classTotals
                (fun ct =>
                   JsObject.set ct label
                     (incr (to_jsnum (JsObject.get ct label))))) ;;
      while_dec (List.length v)
        (fun i _ =>
           if truthy_Z (nth i v 0%Z) then bump label (index_key i)
           else ret tt)
        tt
  | FMapping m =>
      for_each (JsObject.keys m)
        (fun key =>
           let value :=
             match JsObject.get m key with
             | Some v => v
             | None => "undefined"
             end in
           bump label value)
  end.

(** The body of the loop of [train], at position [i] of the log. *)
Definition train_body (i : nat) : M unit :=
  all <- gets docs ;;
  match nth_error all i with
  | None => throw TypeError
  | Some d =>
      features <- docToFeatures (doc_value d) ;;
      addExample (FArray features) (doc_label d) ;;
      modify (set_lastAdded S)
  end.

Definition train : M unit :=
  totalDocs <- gets (fun s => List.length (docs s)) ;;
  start <- gets lastAdded ;;
  for_range start totalDocs train_body.

(** [ToNumber] of a counter, as a double. *)
Definition to_num (x : jsnum) : num :=
  match x with
  | Int n => of_N n
  | NaN => nan
  end.

(** [count = this.classFeatures[label][key] || this.smoothing]. *)
Definition count_used (label key : string) : M jsnum :=
  c <- get_count label key ;;
  if truthy c then ret (to_jsnum c)
  else
    sm <- gets smoothing ;;
    ret (Int sm).

(** [prob += Math.log(count / this.classTotals[label])]. *)
Definition log_term (label key : string) (prob : num) : M num :=
  count <- count_used label key ;;
  ct <- gets classTotals ;;
  ret (nadd prob
         (Math_log
            (ndiv (to_num count) (to_num (to_jsnum (JsObject.get ct label)))))).

(** The positional loop of [probabilityOfClass]: [while (i--)] started
    with [i = n], accumulating into [prob]. *)
Definition score_loop (v : list Z) (label : string) (n : nat) (prob : num)
  : M num :=
  while_dec n
    (fun i prob =>
       if truthy_Z (nth i v 0%Z) then log_term label (index_key i) prob
       else ret prob)
    prob.

Definition probabilityOfClass (docFeatures : featureArg) (label : string)
  : M num :=
  prob <-
    match docFeatures with
    | FArray v => score_loop v label (List.length v) (of_N 0)
    | FMapping m =>
        for_fold (JsObject.keys m)
          (fun key prob =>
             let value :=
               match JsObject.get m key with
               | Some v => v
               | None => "undefined"
               end in
             log_term label value prob)
          (of_N 0)
    end ;;
  ct <- gets classTotals ;;
  total <- gets totalExamples ;;
  let featureRatio :=
    ndiv (to_num (to_jsnum (JsObject.get ct label))) (of_N total) in
  ret (nmul featureRatio (Math_exp prob)).

(** An entry of the ranking: [{label: className, value: probability}]. *)
Record classification : Type := {
  label : string;
  value : num
}.

(** The comparator handed to [sort]. *)
Definition by_value (x y : classification) : num :=
  nsub (value y) (value x).

(** [Array.prototype.sort] is stable; with a consistent comparator its
    result is the one a stable insertion sort computes.  [y] is moved in
    front of [x] when [compare x y] is positive. *)
Fixpoint insert_sorted (compare : classification -> classification -> num)
  (x : classification) (l : list classification) : list classification :=
  match l with
  | [] => [x]
  | y :: l' =>
      if positive (compare x y) then y :: insert_sorted compare x l'
      else x :: l
  end.

Definition sort (compare : classification -> classification -> num)
  (l : list classification) : list classification :=
  fold_right (insert_sorted compare) [] l.

Definition getClassifications (doc : jsval string) : M (list classification) :=
  cf <- gets classFeatures ;;
  labels <-
    for_push (JsObject.keys cf)
      (fun className =>
         fv <- docToFeatures doc ;;
         p <- probabilityOfClass (FArray fv) className ;;
         ret {| label := className; value := p |}) ;;
  ret (sort by_value labels).

Definition classify (doc : jsval string) : M string :=
  classifications <- getClassifications doc ;;
  sz <- lift (_size (JArray classifications)) ;;
  if not_size sz then throw NotTrained
  else
    match classifications with
    | c :: _ => ret (label c)
    | [] => throw TypeError
    end.

End Classifier.

(** ** Specification vocabulary *)

(** The value a count has after one more occurrence of its feature. *)
Definition bumped (sm : N) (c : option jsnum) : jsnum :=
  if truthy c then incr (to_jsnum c) else Int (1 + sm)%N.

(** A document proper: a string or a sequence of stems. *)
Definition is_document {E : Type} (doc : jsval E) : bool :=
  _isString doc || _isArray doc.

(** Position [i] of a vector holds a present feature. *)
Definition present (v : list Z) (i : nat) : bool :=
  Nat.ltb i (List.length v) && truthy_Z (nth i v 0%Z).


Definition total_before (s : NaiveBayes) (l : string) : jsnum :=
  match JsObject.get (classFeatures s) l with
  | Some _ => to_jsnum (JsObject.get (classTotals s) l)
  | None => Int 1
  end.

(** A computation that leaves the classifier as it found it. *)
Definition read_only {A : Type} (m : M A) : Prop :=
  forall s : NaiveBayes, snd (m s) = s.

(** A computation that does not raise the untrained-model error. *)
Definition no_NotTrained {A : Type} (m : M A) : Prop :=
  forall s : NaiveBayes, fst (m s) <> Throw NotTrained.







(** Every logged document is a sequence of stems. *)
Definition docs_are_sequences (s : NaiveBayes) : Prop :=
  Forall (fun d : docObj => exists a : list string, doc_value d = JArray a)
    (docs s).

(** A computation that maintains [P], whether it returns or throws. *)
Definition preserves {A : Type} (P : NaiveBayes -> Prop) (m : M A) : Prop :=
  forall s : NaiveBayes, P s -> P (snd (m s)).

Section Specification.

Context {Num : JSNumber}.
Variable tokenizeAndStem : string -> list string.

(** The calls that change a classifier. *)
Inductive call : Type :=
| CallAddDocument (doc : jsval string) (label : string)
| CallAddDocuments (docs : list (jsval string)) (label : string)
| CallTrain
| CallAddExample (docFeatures : featureArg) (label : string).

Definition run_call (c : call) : M unit :=
  match c with
  | CallAddDocument doc label => addDocument tokenizeAndStem doc label
  | CallAddDocuments docs label => addDocuments tokenizeAndStem docs label
  | CallTrain => train tokenizeAndStem
  | CallAddExample docFeatures label => addExample docFeatures label
  end.

(** The states a classifier can be in: a fresh instance, and whatever a
    call leaves behind, whether it returned or threw. *)
Inductive reachable : NaiveBayes -> Prop :=
| reachable_new : reachable constructor
| reachable_call (s : NaiveBayes) (c : call) :
    reachable s -> reachable (snd (run_call c s)).

(** [x] may stand before [y] in the ranking: its value is not smaller. *)
Definition not_below (x y : classification) : Prop :=
  nltb (value x) (value y) = false.


(** [prob] after the positional loop of [probabilityOfClass] when every
    present position below [n] contributes the same [term]. *)
Fixpoint floor_sum (term : num) (v : list Z) (n : nat) (prob : num) : num :=
  match n with
  | O => prob
  | S i =>
      floor_sum term v i
        (if truthy_Z (nth i v 0%Z) then nadd prob term else prob)
  end.

End Specification.

(** ** The real numbers as an instance of the number interface

    Exact arithmetic satisfies the laws; [nan] has no counterpart and is
    sent to 0. *)

Definition R_positive (d : R) : bool :=
  if Rlt_dec 0 d then true else false.

Definition R_ltb (a b : R) : bool :=
  if Rlt_dec a b then true else false.

Definition R_number : JSNumber := {|
  num := R;
  of_N := fun n => IZR (Z.of_N n);
  nan := 0%R;
  nadd := Rplus;
  nsub := Rminus;
  nmul := Rmult;
  ndiv := Rdiv;
  Math_log := ln;
  Math_exp := exp;
  positive := R_positive;
  nltb := R_ltb
|}.

(** A stand-in stemmer for concrete runs: split at blanks. *)
Fixpoint words_from (s : string) (w : string) : list string :=
  match s with
  | EmptyString => if String.eqb w "" then [] else [w]
  | String c s' =>
      if Ascii.eqb c " "
      then (if String.eqb w "" then words_from s' "" else w :: words_from s' "")
      else words_from s' (w ++ String c EmptyString)
  end.

Definition words (s : string) : list string := words_from s "".

(** The vocabulary as a list of distinct stems in the order in which they
    were first observed. *)
Fixpoint observe (vocabulary stems : list string) : list string :=
  match stems with
  | [] => vocabulary
  | stem :: stems' =>
      observe
        (if existsb (String.eqb stem) vocabulary then vocabulary
         else vocabulary ++ [stem])
        stems'
  end.

(** The presence vector of a stem sequence over an enumeration of the
    vocabulary. *)
Definition presence (enumeration doc : list string) : list Z :=
  map (fun stem => Number (existsb (String.eqb stem) doc)) enumeration.

(** A classifier trained on two documents of one class. *)
Definition trained_pos : NaiveBayes :=
  snd (run_call words CallTrain
         (snd (run_call words
                 (CallAddDocuments
                    [JString "i love cats"; JString "i love dogs"] "pos")
                 constructor))).

(** The classifier of the end-to-end scenario: two documents per class,
    all added before the one call of [train]. *)
Definition trained_pos_neg : NaiveBayes :=
  snd (run_call words CallTrain
         (snd (run_call words
                 (CallAddDocuments
                    [JString "i hate cats"; JString "i hate dogs"] "neg")
                 (snd (run_call words
                         (CallAddDocuments
                            [JString "i love cats"; JString "i love dogs"]
                            "pos")
                         constructor))))).

(** A classifier that has logged a document with a numeric stem. *)
Definition logged_numeric : NaiveBayes :=
  snd (addDocument words (JArray ["b"; "1"]) "pos" constructor).

(** A classifier trained on the document [["b"]], and the same classifier
    after the document [["1"]] was added and trained as well. *)
Definition trained_b : NaiveBayes :=
  snd (train words (snd (addDocument words (JArray ["b"]) "x" constructor))).

Definition trained_b_then_1 : NaiveBayes :=
  snd (train words (snd (addDocument words (JArray ["1"]) "y" trained_b))).

(** ** Vocabulary for the properties beyond the ranking *)

(** [s'] has the log and the vocabulary of [s], possibly with more entries
    after them. *)
Definition extends (s s' : NaiveBayes) : Prop :=
  (exists d : list docObj, docs s' = docs s ++ d) /\
  (exists f : list string,
      map fst (features s') = map fst (features s) ++ f).

(** A computation that takes every state to a state related to it by
    [R], whether it returns or throws. *)
Definition moves_by {A : Type} (R : NaiveBayes -> NaiveBayes -> Prop)
  (m : M A) : Prop :=
  forall s : NaiveBayes, R s (snd (m s)).

(** The documents logged at or after the cursor. *)
Definition pending (s : NaiveBayes) : list docObj :=
  skipn (lastAdded s) (docs s).

(** The stems of a logged document. *)
Definition stems_of (d : docObj) : list string :=
  match doc_value d with
  | JArray a => a
  | _ => []
  end.


(** The one-character strings [docs[0]], [docs[1]], ... of a string.  A
    character of the model stands for one code unit of the string. *)
Definition chars (s : string) : list (jsval string) :=
  map (fun c => JString (String c EmptyString)) (list_ascii_of_string s).

Section Callers.

Context {Num : JSNumber}.
Variable tokenizeAndStem : string -> list string.

(** [addDocuments] for any value of [docs]: the loop is bounded by
    [docs.length] and reads [docs[i]]. *)
Definition addDocuments_any (docs : jsval (jsval string)) (label : string)
  : M unit :=
  match docs with
  | JUndefined | JNull => throw TypeError
  | JArray a => addDocuments tokenizeAndStem a label
  | JString s => addDocuments tokenizeAndStem (chars s) label
  | JBoolean _ | JNumber _ | JObject => ret tt
  end.

(** What [train] does with one pending document: its vector over the
    vocabulary as it stands, accumulated under its label, and the cursor
    moved past it. *)
Definition train_step (s : NaiveBayes) (d : docObj) : NaiveBayes :=
  set_lastAdded S
    (snd (addExample
            (FArray (presence (JsObject.keys (features s)) (stems_of d)))
            (doc_label d) s)).


(** *** src/App.js: the calls the component makes on its classifier *)

Definition positiveDocuments : list string :=
  ["Я люблю играть.";
   "Тебе и мне интересно вместе гулять";
   "Собака лучший друг человека";
   "Мне нравиться наука"].

Definition negativeDocuments : list string :=
  ["Ты плохой друг";
   "мне ужасно больно";
   "На меня кричала учительница";
   "Мой брат ругал меня сильно"].

Definition componentWillMount : M unit :=
  addDocuments_any (JArray (map JString positiveDocuments)) "positive" ;;
  addDocuments_any (JArray (map JString negativeDocuments)) "negative" ;;
  train tokenizeAndStem.

(** [_onAdd(type, sentence)]: the text of a textarea is handed to
    [addDocuments] as it is. *)
Definition _onAdd (type sentence : string) : M unit :=
  addDocuments_any (JString sentence) type ;;
  train tokenizeAndStem.

(** [_onCheck(sentence)]: the message shown for the sentence. *)
Definition _onCheck (sentence : string) : M string :=
  result <- classify tokenizeAndStem (JString sentence) ;;
  ret (if String.eqb result "positive" then "Предложение позитивное"
       else "Предложение негативное").

(** The classifier of the application: mounted, then fed through the two
    buttons. *)
Inductive app_state : NaiveBayes -> Prop :=
| app_mounted : app_state (snd (componentWillMount constructor))
| app_added_positive (s : NaiveBayes) (sentence : string) :
    app_state s -> app_state (snd (_onAdd "positive" sentence s))
| app_added_negative (s : NaiveBayes) (sentence : string) :
    app_state s -> app_state (snd (_onAdd "negative" sentence s)).

(** What the classifier of the application satisfies between two
    events. *)
Definition app_invariant (s : NaiveBayes) : Prop :=
  reachable tokenizeAndStem s /\
  map fst (classFeatures s) = ["positive"; "negative"] /\
  lastAdded s = List.length (docs s).

End Callers.

(** * Properties *)

(** ** Objects *)

Module JsObjectFacts.

Import JsObject.

Lemma get_set_same {V : Type} (o : t V) (k : string) (v : V) :
  get (set o k v) k = Some v.
Proof.
  induction o as [| [k' v'] o IH]; simpl.
  - now rewrite String.eqb_refl.
  - destruct (String.eqb k k') eqn:E; simpl; rewrite E; auto.
Qed.

Lemma get_set_other {V : Type} (o : t V) (k k' : string) (v : V) :
  k <> k' -> get (set o k v) k' = get o k'.
Proof.
  intros Hne. induction o as [| [k0 v0] o IH]; simpl.
  - destruct (String.eqb k' k) eqn:E; auto.
    apply String.eqb_eq in E. congruence.
  - destruct (String.eqb k k0) eqn:E; simpl.
    + apply String.eqb_eq in E. subst k0.
      destruct (String.eqb k' k) eqn:E'; [| reflexivity].
      apply String.eqb_eq in E'. congruence.
    + now rewrite IH.
Qed.

Lemma set_set {V : Type} (o : t V) (k : string) (v w : V) :
  set (set o k v) k w = set o k w.
Proof.
  induction o as [| [k0 v0] o IH]; simpl.
  - now rewrite String.eqb_refl.
  - destruct (String.eqb k k0) eqn:E; simpl; rewrite E; congruence.
Qed.

Lemma set_unchanged {V : Type} (o : t V) (k : string) (v : V) :
  get o k = Some v -> set o k v = o.
Proof.
  induction o as [| [k0 v0] o IH]; simpl; [discriminate |].
  destruct (String.eqb k k0).
  - intros [= ->]. reflexivity.
  - intros H. now rewrite IH.
Qed.


Lemma get_None_set {V : Type} (o : t V) (k : string) (v : V) :
  get o k = None -> set o k v = o ++ [(k, v)].
Proof.
  induction o as [| [k0 v0] o IH]; simpl; [reflexivity |].
  destruct (String.eqb k k0); [discriminate |].
  intros H. now rewrite IH.
Qed.

Lemma get_Some_set_fst {V : Type} (o : t V) (k : string) (v : V) :
  get o k <> None -> map fst (set o k v) = map fst o.
Proof.
  induction o as [| [k0 v0] o IH]; simpl; [congruence |].
  destruct (String.eqb k k0); simpl; [reflexivity |].
  intros H. now rewrite IH.
Qed.



Lemma insert_index_not_nil (n : N) (k : string) (l : list (N * string)) :
  insert_index n k l <> [].
Proof.
  destruct l as [| [m k'] l]; simpl; [discriminate |].
  destruct (n <=? m)%N; discriminate.
Qed.

Lemma insert_index_length (n : N) (k : string) (l : list (N * string)) :
  List.length (insert_index n k l) = S (List.length l).
Proof.
  induction l as [| [m k'] l IH]; simpl; [reflexivity |].
  destruct (n <=? m)%N; simpl; congruence.
Qed.

(** An object without properties is the only one [for ... in] does not
    enter. *)
Lemma keys_nil {V : Type} (o : t V) : keys o = [] <-> o = [].
Proof.
  split; [| intros ->; reflexivity].
  destruct o as [| [k v] o]; [reflexivity |].
  unfold keys, name_keys, is_index. simpl.
  destruct (array_index k) as [n |]; simpl.
  - intros H. apply app_eq_nil in H as [H _].
    apply map_eq_nil in H. now apply insert_index_not_nil in H.
  - intros H. apply app_eq_nil in H as [_ H]. discriminate.
Qed.

Lemma keys_length {V : Type} (o : t V) :
  List.length (keys o) = List.length o.
Proof.
  unfold keys, name_keys, is_index. rewrite length_app, length_map.
  induction o as [| [k v] o IH]; simpl; [reflexivity |].
  destruct (array_index k) as [n |]; simpl.
  - rewrite insert_index_length. simpl. now rewrite IH.
  - rewrite <- IH. lia.
Qed.

(** Without array-index keys the enumeration is the creation order. *)
Lemma keys_no_index {V : Type} (o : t V) :
  Forall (fun k => is_index k = false) (map fst o) -> keys o = map fst o.
Proof.
  unfold keys, name_keys, is_index.
  induction o as [| [k v] o IH]; simpl; [reflexivity |].
  intros H. inversion H as [| ? ? Hk Ho]; subst. simpl in Hk.
  destruct (array_index k) as [n |]; [discriminate |]. simpl.
  specialize (IH Ho).
  destruct (index_keys o) as [| p l] eqn:E.
  - simpl in *. now rewrite IH.
  - exfalso. clear IH H Hk. revert p l E.
    induction o as [| [k0 v0] o IHo]; simpl; intros p l E; [discriminate |].
    inversion Ho as [| ? ? Hk0 Ho']; subst. simpl in Hk0.
    destruct (array_index k0); [discriminate |]. eauto.
Qed.

End JsObjectFacts.

(** [String(i)] determines [i]. *)
Lemma index_key_inj (i j : nat) : index_key i = index_key j -> i = j.
Proof.
  unfold index_key. intros H.
  assert (E : Nat.to_uint i = Nat.to_uint j).
  { pose proof (NilEmpty.usu (Nat.to_uint i)) as Hi.
    pose proof (NilEmpty.usu (Nat.to_uint j)) as Hj.
    rewrite H in Hi. congruence. }
  apply (f_equal Nat.of_uint) in E.
  now rewrite !DecimalNat.Unsigned.of_to in E.
Qed.

(** ** Running a computation step by step *)

Section Steps.

Context {A B : Type}.

Lemma bind_ret (a : A) (k : A -> M B) (s : NaiveBayes) :
  bind (ret a) k s = k a s.
Proof. reflexivity. Qed.

Lemma bind_gets (f : NaiveBayes -> A) (k : A -> M B) (s : NaiveBayes) :
  bind (gets f) k s = k (f s) s.
Proof. reflexivity. Qed.

Lemma bind_modify (f : NaiveBayes -> NaiveBayes) (k : unit -> M B)
  (s : NaiveBayes) :
  bind (modify f) k s = k tt (f s).
Proof. reflexivity. Qed.

Lemma bind_throw (e : exn) (k : A -> M B) (s : NaiveBayes) :
  bind (throw e) k s = (Throw e, s).
Proof. reflexivity. Qed.

Lemma bind_lift_Return (a : A) (k : A -> M B) (s : NaiveBayes) :
  bind (lift (Return a)) k s = k a s.
Proof. reflexivity. Qed.

Lemma bind_lift_Throw (e : exn) (k : A -> M B) (s : NaiveBayes) :
  bind (lift (@Throw A e)) k s = (Throw e, s).
Proof. reflexivity. Qed.

Lemma bind_bind {C : Type} (m : M A) (k1 : A -> M B) (k2 : B -> M C)
  (s : NaiveBayes) :
  bind (bind m k1) k2 s = bind m (fun a => bind (k1 a) k2) s.
Proof. unfold bind. destruct (m s) as [[a | e] s']; reflexivity. Qed.

(** What a computation does when its first part returned or threw. *)
Lemma bind_Return (m : M A) (k : A -> M B) (s s' : NaiveBayes) (a : A) :
  m s = (Return a, s') -> bind m k s = k a s'.
Proof. unfold bind. now intros ->. Qed.

Lemma bind_Throw (m : M A) (k : A -> M B) (s s' : NaiveBayes) (e : exn) :
  m s = (Throw e, s') -> bind m k s = (Throw e, s').
Proof. unfold bind. now intros ->. Qed.

End Steps.

(** ** Computations that only read *)

Section ReadOnly.

Lemma read_only_ret {A : Type} (a : A) : read_only (ret a).
Proof. intros s. reflexivity. Qed.

Lemma read_only_throw {A : Type} (e : exn) : read_only (@throw A e).
Proof. intros s. reflexivity. Qed.

Lemma read_only_gets {A : Type} (f : NaiveBayes -> A) : read_only (gets f).
Proof. intros s. reflexivity. Qed.

Lemma read_only_lift {A : Type} (o : outcome A) : read_only (lift o).
Proof. intros s. reflexivity. Qed.

Lemma read_only_bind {A B : Type} (m : M A) (k : A -> M B) :
  read_only m -> (forall a, read_only (k a)) -> read_only (bind m k).
Proof.
  intros Hm Hk s. unfold bind. specialize (Hm s).
  destruct (m s) as [[a | e] s']; simpl in *; subst s'.
  - apply Hk.
  - reflexivity.
Qed.

Lemma read_only_for_push {A B : Type} (l : list A) (f : A -> M B) :
  (forall x, read_only (f x)) -> read_only (for_push l f).
Proof.
  intros Hf. induction l as [| x l IH]; simpl.
  - apply read_only_ret.
  - apply read_only_bind; [apply Hf |]. intros y.
    apply read_only_bind; [exact IH |]. intros ys. apply read_only_ret.
Qed.

Lemma read_only_for_fold {A B : Type} (l : list A) (body : A -> B -> M B) :
  (forall x acc, read_only (body x acc)) ->
  forall acc, read_only (for_fold l body acc).
Proof.
  intros Hb. induction l as [| x l IH]; intros acc; simpl.
  - apply read_only_ret.
  - apply read_only_bind; [apply Hb | exact IH].
Qed.

Lemma read_only_while_dec {A : Type} (n : nat) (body : nat -> A -> M A) :
  (forall i acc, read_only (body i acc)) ->
  forall acc, read_only (while_dec n body acc).
Proof.
  intros Hb. induction n as [| i IH]; intros acc; simpl.
  - apply read_only_ret.
  - apply read_only_bind; [apply Hb | exact IH].
Qed.

(** A read-only computation is determined by its outcome. *)
Lemma read_only_run {A : Type} (m : M A) (s : NaiveBayes) :
  read_only m -> m s = (fst (m s), s).
Proof.
  intros H. specialize (H s). destruct (m s) as [r s']. simpl in *.
  now subst.
Qed.

End ReadOnly.

Ltac read_only_step :=
  first
    [ apply read_only_ret | apply read_only_throw | apply read_only_gets
    | apply read_only_lift
    | apply read_only_bind; [| intro]
    | apply read_only_for_push; intro
    | apply read_only_for_fold; intros
    | apply read_only_while_dec; intros ].

Section Inference.

Context {Num : JSNumber}.
Variable tokenizeAndStem : string -> list string.

Lemma docToFeatures_read_only (doc : jsval string) :
  read_only (docToFeatures tokenizeAndStem doc).
Proof. unfold docToFeatures. repeat read_only_step. Qed.

Lemma class_counts_read_only (l : string) : read_only (class_counts l).
Proof.
  unfold class_counts. read_only_step; [read_only_step |].
  match goal with |- context [JsObject.get ?c l] =>
    destruct (JsObject.get c l) end; read_only_step.
Qed.

Lemma count_used_read_only (l k : string) : read_only (count_used l k).
Proof.
  unfold count_used, get_count.
  read_only_step.
  - read_only_step; [apply class_counts_read_only | read_only_step].
  - match goal with |- context [truthy ?c] => destruct (truthy c) end;
      repeat read_only_step.
Qed.

Lemma log_term_read_only (l k : string) (p : num) :
  read_only (log_term l k p).
Proof.
  unfold log_term. read_only_step; [apply count_used_read_only |].
  repeat read_only_step.
Qed.

Lemma probabilityOfClass_read_only (f : featureArg) (l : string) :
  read_only (probabilityOfClass f l).
Proof.
  unfold probabilityOfClass, score_loop. read_only_step.
  - destruct f as [v | m]; read_only_step.
    + match goal with |- context [truthy_Z ?z] => destruct (truthy_Z z) end;
        [apply log_term_read_only | read_only_step].
    + apply log_term_read_only.
  - repeat read_only_step.
Qed.

Lemma getClassifications_read_only (doc : jsval string) :
  read_only (getClassifications tokenizeAndStem doc).
Proof.
  unfold getClassifications. read_only_step; [read_only_step |].
  read_only_step; [| read_only_step].
  read_only_step. read_only_step; [apply docToFeatures_read_only |].
  read_only_step; [apply probabilityOfClass_read_only | read_only_step].
Qed.

Lemma classify_read_only (doc : jsval string) :
  read_only (classify tokenizeAndStem doc).
Proof.
  unfold classify. read_only_step; [apply getClassifications_read_only |].
  read_only_step; [read_only_step |].
  match goal with |- context [not_size ?x] => destruct (not_size x) end;
    [read_only_step |].
  match goal with |- context [match ?r with [] => _ | _ :: _ => _ end] =>
    destruct r end; read_only_step.
Qed.

(** C10.  The inference operations [classify], [getClassifications],
    [docToFeatures] and [probabilityOfClass] leave the classifier state
    (documents, vocabulary, class counts, class totals, example total and
    cursor) exactly as it was before the call, whether they return or
    throw. *)
Theorem inference_preserves_state :
  forall (doc : jsval string) (docFeatures : featureArg) (l : string)
         (s : NaiveBayes),
    snd (classify tokenizeAndStem doc s) = s /\
    snd (getClassifications tokenizeAndStem doc s) = s /\
    snd (docToFeatures tokenizeAndStem doc s) = s /\
    snd (probabilityOfClass docFeatures l s) = s.
Proof.
  intros doc docFeatures l s. repeat split.
  - apply classify_read_only.
  - apply getClassifications_read_only.
  - apply docToFeatures_read_only.
  - apply probabilityOfClass_read_only.
Qed.

End Inference.

(** ** The untrained-model error *)

Section NoNotTrained.

Lemma nnt_ret {A : Type} (a : A) : no_NotTrained (ret a).
Proof. intros s. discriminate. Qed.

Lemma nnt_throw_TypeError {A : Type} : no_NotTrained (@throw A TypeError).
Proof. intros s. discriminate. Qed.

Lemma nnt_gets {A : Type} (f : NaiveBayes -> A) : no_NotTrained (gets f).
Proof. intros s. discriminate. Qed.

Lemma nnt_modify (f : NaiveBayes -> NaiveBayes) : no_NotTrained (modify f).
Proof. intros s. discriminate. Qed.

Lemma nnt_lift {A : Type} (o : outcome A) :
  o <> Throw NotTrained -> no_NotTrained (lift o).
Proof. intros H s. exact H. Qed.

Lemma nnt_bind {A B : Type} (m : M A) (k : A -> M B) :
  no_NotTrained m -> (forall a, no_NotTrained (k a)) ->
  no_NotTrained (bind m k).
Proof.
  intros Hm Hk s. unfold bind. specialize (Hm s).
  destruct (m s) as [[a | e] s']; simpl in *.
  - apply Hk.
  - intros [= ->]. now apply Hm.
Qed.

Lemma nnt_for_each {A : Type} (l : list A) (body : A -> M unit) :
  (forall x, no_NotTrained (body x)) -> no_NotTrained (for_each l body).
Proof.
  intros Hb. induction l as [| x l IH]; simpl.
  - apply nnt_ret.
  - apply nnt_bind; [apply Hb | intros _; exact IH].
Qed.

Lemma nnt_for_push {A B : Type} (l : list A) (f : A -> M B) :
  (forall x, no_NotTrained (f x)) -> no_NotTrained (for_push l f).
Proof.
  intros Hf. induction l as [| x l IH]; simpl.
  - apply nnt_ret.
  - apply nnt_bind; [apply Hf |]. intros y.
    apply nnt_bind; [exact IH |]. intros ys. apply nnt_ret.
Qed.

Lemma nnt_for_fold {A B : Type} (l : list A) (body : A -> B -> M B) :
  (forall x acc, no_NotTrained (body x acc)) ->
  forall acc, no_NotTrained (for_fold l body acc).
Proof.
  intros Hb. induction l as [| x l IH]; intros acc; simpl.
  - apply nnt_ret.
  - apply nnt_bind; [apply Hb | exact IH].
Qed.

Lemma nnt_while_dec {A : Type} (n : nat) (body : nat -> A -> M A) :
  (forall i acc, no_NotTrained (body i acc)) ->
  forall acc, no_NotTrained (while_dec n body acc).
Proof.
  intros Hb. induction n as [| i IH]; intros acc; simpl.
  - apply nnt_ret.
  - apply nnt_bind; [apply Hb | exact IH].
Qed.

Lemma _size_not_NotTrained {E : Type} (v : jsval E) :
  _size v <> Throw NotTrained.
Proof. destruct v; discriminate. Qed.

Lemma elements_not_NotTrained {E : Type} (v : jsval E) :
  elements v <> Throw NotTrained.
Proof. destruct v; discriminate. Qed.

Lemma indexOf_not_NotTrained (v : jsval string) (x : string) :
  indexOf v x <> Throw NotTrained.
Proof. destruct v; discriminate. Qed.

End NoNotTrained.

Ltac nnt_step :=
  first
    [ apply nnt_ret | apply nnt_throw_TypeError | apply nnt_gets
    | apply nnt_modify
    | apply nnt_lift;
      first [ apply _size_not_NotTrained | apply elements_not_NotTrained
            | apply indexOf_not_NotTrained ]
    | apply nnt_bind; [| intro]
    | apply nnt_for_each; intro
    | apply nnt_for_push; intro
    | apply nnt_for_fold; intros
    | apply nnt_while_dec; intros ].

Section Untrained.

Context {Num : JSNumber}.
Variable tokenizeAndStem : string -> list string.

Lemma docToFeatures_nnt (doc : jsval string) :
  no_NotTrained (docToFeatures tokenizeAndStem doc).
Proof. unfold docToFeatures. repeat nnt_step. Qed.

Lemma class_counts_nnt (l : string) : no_NotTrained (class_counts l).
Proof.
  unfold class_counts. nnt_step; [nnt_step |].
  match goal with |- context [JsObject.get ?c l] =>
    destruct (JsObject.get c l) end; nnt_step.
Qed.

Lemma bump_nnt (l k : string) : no_NotTrained (bump l k).
Proof.
  unfold bump, get_count, set_count.
  nnt_step; [nnt_step; [apply class_counts_nnt | nnt_step] |].
  match goal with |- context [truthy ?c] => destruct (truthy c) end.
  - nnt_step; [apply class_counts_nnt | nnt_step].
  - nnt_step; [nnt_step |]. nnt_step; [apply class_counts_nnt | nnt_step].
Qed.

Lemma addExample_nnt (f : featureArg) (l : string) :
  no_NotTrained (addExample f l).
Proof.
  unfold addExample. nnt_step; [nnt_step |].
  nnt_step.
  - match goal with |- context [JsObject.get ?c l] =>
      destruct (JsObject.get c l) end; repeat nnt_step.
  - nnt_step; [nnt_step |].
    destruct f as [v | m].
    + nnt_step; [nnt_step |]. nnt_step.
      destruct (truthy_Z (nth i v 0%Z)); [apply bump_nnt | nnt_step].
    + nnt_step. apply bump_nnt.
Qed.

Lemma addDocument_nnt (doc : jsval string) (l : string) :
  no_NotTrained (addDocument tokenizeAndStem doc l).
Proof.
  unfold addDocument. nnt_step; [nnt_step |].
  match goal with |- context [not_size ?x] => destruct (not_size x) end;
    repeat nnt_step.
Qed.

Lemma addDocuments_nnt (ds : list (jsval string)) (l : string) :
  no_NotTrained (addDocuments tokenizeAndStem ds l).
Proof. unfold addDocuments. nnt_step. apply addDocument_nnt. Qed.

Lemma train_nnt : no_NotTrained (train tokenizeAndStem).
Proof.
  unfold train, for_range. nnt_step; [nnt_step |].
  nnt_step; [nnt_step |]. nnt_step. nnt_step; [nnt_step |].
  match goal with |- context [nth_error ?a ?i] =>
    destruct (nth_error a i) end; [| nnt_step].
  nnt_step; [apply docToFeatures_nnt |].
  nnt_step; [apply addExample_nnt | nnt_step].
Qed.

Lemma count_used_nnt (l k : string) : no_NotTrained (count_used l k).
Proof.
  unfold count_used, get_count.
  nnt_step; [nnt_step; [apply class_counts_nnt | nnt_step] |].
  match goal with |- context [truthy ?c] => destruct (truthy c) end;
    repeat nnt_step.
Qed.

Lemma probabilityOfClass_nnt (f : featureArg) (l : string) :
  no_NotTrained (probabilityOfClass f l).
Proof.
  unfold probabilityOfClass, score_loop, log_term.
  nnt_step; [| repeat nnt_step].
  destruct f as [v | m]; nnt_step.
  - destruct (truthy_Z (nth i v 0%Z)); [| nnt_step].
    nnt_step; [apply count_used_nnt | repeat nnt_step].
  - nnt_step; [apply count_used_nnt | repeat nnt_step].
Qed.

Lemma getClassifications_nnt (doc : jsval string) :
  no_NotTrained (getClassifications tokenizeAndStem doc).
Proof.
  unfold getClassifications. nnt_step; [nnt_step |].
  nnt_step; [| nnt_step]. nnt_step.
  nnt_step; [apply docToFeatures_nnt |].
  nnt_step; [apply probabilityOfClass_nnt | nnt_step].
Qed.

Lemma for_push_length {A B : Type} (l : list A) (f : A -> M B) :
  forall (s s' : NaiveBayes) (ys : list B),
    for_push l f s = (Return ys, s') -> List.length ys = List.length l.
Proof.
  induction l as [| x l IH]; simpl; intros s s' ys H.
  - inversion H. reflexivity.
  - unfold bind in H. destruct (f x s) as [[y | e] s1]; [| discriminate].
    destruct (for_push l f s1) as [[zs | e] s2] eqn:E; [| discriminate].
    inversion H; subst. simpl. f_equal. eauto.
Qed.

Lemma insert_sorted_length (cmp : classification -> classification -> num)
  (x : classification) (l : list classification) :
  List.length (insert_sorted cmp x l) = S (List.length l).
Proof.
  induction l as [| y l IH]; simpl; [reflexivity |].
  destruct (positive (cmp x y)); simpl; congruence.
Qed.

Lemma sort_length (cmp : classification -> classification -> num)
  (l : list classification) :
  List.length (sort cmp l) = List.length l.
Proof.
  induction l as [| x l IH]; simpl; [reflexivity |].
  rewrite insert_sorted_length. congruence.
Qed.

Lemma getClassifications_length (doc : jsval string) (s s' : NaiveBayes)
  (r : list classification) :
  getClassifications tokenizeAndStem doc s = (Return r, s') ->
  List.length r = List.length (classFeatures s).
Proof.
  unfold getClassifications, bind, gets, ret. intros H.
  match type of H with
  | context [for_push ?l ?f s] =>
      destruct (for_push l f s) as [[ys | e] s1] eqn:E; [| discriminate]
  end.
  inversion H; subst. rewrite sort_length.
  apply for_push_length in E. rewrite E.
  apply JsObjectFacts.keys_length.
Qed.

(** C1.  [classify] raises the untrained-model error exactly when no class
    has been trained, that is when [classFeatures] has no property and the
    ranking is empty; a freshly constructed classifier raises it for every
    document; and no other operation of the class raises it. *)
Theorem classify_NotTrained_iff_untrained :
  forall (doc : jsval string) (s : NaiveBayes),
    (fst (classify tokenizeAndStem doc s) = Throw NotTrained <->
     classFeatures s = JsObject.empty) /\
    fst (classify tokenizeAndStem doc constructor) = Throw NotTrained /\
    (forall (ds : list (jsval string)) (f : featureArg) (l : string),
        fst (getClassifications tokenizeAndStem doc s) <> Throw NotTrained /\
        fst (docToFeatures tokenizeAndStem doc s) <> Throw NotTrained /\
        fst (probabilityOfClass f l s) <> Throw NotTrained /\
        fst (addDocument tokenizeAndStem doc l s) <> Throw NotTrained /\
        fst (addDocuments tokenizeAndStem ds l s) <> Throw NotTrained /\
        fst (train tokenizeAndStem s) <> Throw NotTrained /\
        fst (addExample f l s) <> Throw NotTrained).
Proof.
  intros doc s. split; [| split].
  - split.
    + intros H.
      destruct (classFeatures s) as [| p cf] eqn:Ecf; [reflexivity |].
      exfalso. revert H. unfold classify, bind.
      pose proof (getClassifications_nnt doc s) as Hn.
      destruct (getClassifications tokenizeAndStem doc s)
        as [[r | e] s1] eqn:E; simpl in *;
        [| intros [= ->]; now apply Hn].
      apply getClassifications_length in E. rewrite Ecf in E.
      destruct r as [| c r]; [discriminate |]. discriminate.
    + intros H. unfold classify, getClassifications, bind, gets.
      rewrite H. reflexivity.
  - reflexivity.
  - intros ds f l. repeat split.
    + apply getClassifications_nnt.
    + apply docToFeatures_nnt.
    + apply probabilityOfClass_nnt.
    + apply addDocument_nnt.
    + apply addDocuments_nnt.
    + apply train_nnt.
    + apply addExample_nnt.
Qed.

End Untrained.

(** ** Accumulating an example *)

Section AddExample.

Import JsObject JsObjectFacts.

Lemma set_classFeatures_twice (l : string) (o1 o2 : t jsnum) (s : NaiveBayes) :
  set_classFeatures (fun cf => set cf l o2)
    (set_classFeatures (fun cf => set cf l o1) s) =
  set_classFeatures (fun cf => set cf l o2) s.
Proof. unfold set_classFeatures. simpl. now rewrite set_set. Qed.

Lemma bump_run (l k : string) (o : t jsnum) (s : NaiveBayes) :
  get (classFeatures s) l = Some o ->
  bump l k s =
  (Return tt,
   set_classFeatures
     (fun cf => set cf l (set o k (bumped (smoothing s) (get o k)))) s).
Proof.
  intros H.
  unfold bump, get_count, set_count, class_counts, bind, gets, ret, bumped.
  rewrite H. destruct (truthy (get o k)); simpl; now rewrite H.
Qed.


(** The positional loop of [addExample], run from position [n] down. *)
Lemma while_bump (v : list Z) (l : string) :
  forall (n : nat) (s : NaiveBayes) (o : t jsnum),
    get (classFeatures s) l = Some o ->
    exists o' : t jsnum,
      while_dec n
        (fun i _ =>
           if truthy_Z (nth i v 0%Z) then bump l (index_key i) else ret tt)
        tt s =
      (Return tt, set_classFeatures (fun cf => set cf l o') s) /\
      (forall i, i < n -> truthy_Z (nth i v 0%Z) = true ->
         get o' (index_key i) =
         Some (bumped (smoothing s) (get o (index_key i)))) /\
      (forall k,
         (forall i, i < n -> truthy_Z (nth i v 0%Z) = true ->
                    k <> index_key i) ->
         get o' k = get o k).
Proof.
  induction n as [| n IH]; intros s o Ho.
  - exists o. split; [| split].
    + simpl. unfold ret, set_classFeatures.
      rewrite (set_unchanged _ _ _ Ho). now destruct s.
    + intros i Hi. lia.
    + reflexivity.
  - simpl. unfold bind at 1.
    destruct (truthy_Z (nth n v 0%Z)) eqn:Ev.
    + rewrite (bump_run l (index_key n) o s Ho).
      set (o1 := set o (index_key n)
                   (bumped (smoothing s) (get o (index_key n)))).
      set (s1 := set_classFeatures (fun cf => set cf l o1) s).
      assert (H1 : get (classFeatures s1) l = Some o1)
        by (unfold s1; simpl; apply get_set_same).
      destruct (IH s1 o1 H1) as (o' & Hrun & Hin & Hout).
      exists o'. split; [| split].
      * rewrite Hrun. unfold s1. now rewrite set_classFeatures_twice.
      * intros i Hi Hp.
        destruct (Nat.eq_dec i n) as [-> | Hne].
        -- rewrite Hout.
           ++ unfold o1. apply get_set_same.
           ++ intros j Hj _ E. apply index_key_inj in E. lia.
        -- rewrite Hin by (auto; lia). unfold o1, s1. simpl.
           rewrite get_set_other; [reflexivity |].
           intros E. apply index_key_inj in E. lia.
      * intros k Hk. rewrite Hout.
        -- unfold o1. apply get_set_other. intros E.
           apply (Hk n); [lia | exact Ev | now symmetry].
        -- intros i Hi Hp. apply Hk; [lia | exact Hp].
    + unfold ret at 1.
      destruct (IH s o Ho) as (o' & Hrun & Hin & Hout).
      exists o'. split; [exact Hrun | split].
      * intros i Hi Hp.
        destruct (Nat.eq_dec i n) as [-> | Hne]; [congruence |].
        apply Hin; [lia | exact Hp].
      * intros k Hk. apply Hout. intros i Hi Hp. apply Hk; [lia | exact Hp].
Qed.


End AddExample.

(** ** What every call maintains *)

Section Preserves.

Variable P : NaiveBayes -> Prop.

Lemma preserves_read_only {A : Type} (m : M A) :
  read_only m -> preserves P m.
Proof. intros H s Hs. now rewrite H. Qed.

Lemma preserves_modify (f : NaiveBayes -> NaiveBayes) :
  (forall s, P s -> P (f s)) -> preserves P (modify f).
Proof. intros H s Hs. now apply H. Qed.

Lemma preserves_bind {A B : Type} (m : M A) (k : A -> M B) :
  preserves P m -> (forall a, preserves P (k a)) -> preserves P (bind m k).
Proof.
  intros Hm Hk s Hs. unfold bind. specialize (Hm s Hs).
  destruct (m s) as [[a | e] s']; simpl in *.
  - now apply Hk.
  - exact Hm.
Qed.

Lemma preserves_for_each {A : Type} (l : list A) (body : A -> M unit) :
  (forall x, preserves P (body x)) -> preserves P (for_each l body).
Proof.
  intros Hb. induction l as [| x l IH]; simpl.
  - intros s Hs. exact Hs.
  - apply preserves_bind; [apply Hb | intros _; exact IH].
Qed.

Lemma preserves_while_dec {A : Type} (n : nat) (body : nat -> A -> M A) :
  (forall i acc, preserves P (body i acc)) ->
  forall acc, preserves P (while_dec n body acc).
Proof.
  intros Hb. induction n as [| i IH]; intros acc; simpl.
  - intros s Hs. exact Hs.
  - apply preserves_bind; [apply Hb | exact IH].
Qed.

End Preserves.

Section Invariant.

Import JsObject JsObjectFacts.

Context {Num : JSNumber}.
Variable tokenizeAndStem : string -> list string.









End Invariant.

(** ** Training *)

Section Train.

Import JsObject JsObjectFacts.

Context {Num : JSNumber}.
Variable tokenizeAndStem : string -> list string.

(** [addExample] touches neither the document log nor the cursor. *)
Lemma addExample_vector_frame (v : list Z) (l : string) (s : NaiveBayes) :
  exists s' : NaiveBayes,
    addExample (FArray v) l s = (Return tt, s') /\
    docs s' = docs s /\ lastAdded s' = lastAdded s /\
    features s' = features s.
Proof.
  unfold addExample. rewrite bind_gets.
  destruct (get (classFeatures s) l) as [o |] eqn:Hcf.
  - rewrite bind_ret, bind_modify, bind_modify.
    set (s1 := set_classTotals _ _).
    destruct (while_bump v l (List.length v) s1 o Hcf) as (o' & Hrun & _).
    rewrite Hrun. eexists. split; [reflexivity |]. now simpl.
  - rewrite bind_bind, !bind_modify.
    set (s1 := set_classTotals _ _).
    assert (H1 : get (classFeatures s1) l = Some empty)
      by (simpl; apply get_set_same).
    destruct (while_bump v l (List.length v) s1 empty H1)
      as (o' & Hrun & _).
    rewrite Hrun. eexists. split; [reflexivity |]. now simpl.
Qed.

Lemma train_unfold (s : NaiveBayes) :
  train tokenizeAndStem s =
  for_each (seq (lastAdded s) (List.length (docs s) - lastAdded s))
    (train_body tokenizeAndStem) s.
Proof. reflexivity. Qed.

(** One iteration either throws before changing anything, or trains one
    document and advances the cursor by one. *)
Lemma train_body_step (i : nat) (s : NaiveBayes) :
  (exists e, train_body tokenizeAndStem i s = (Throw e, s)) \/
  (exists s', train_body tokenizeAndStem i s = (Return tt, s') /\
              docs s' = docs s /\ lastAdded s' = S (lastAdded s)).
Proof.
  unfold train_body. rewrite bind_gets.
  destruct (nth_error (docs s) i) as [d |]; [| left; now exists TypeError].
  pose proof (read_only_run _ s
                (docToFeatures_read_only tokenizeAndStem (doc_value d)))
    as Hd.
  destruct (fst (docToFeatures tokenizeAndStem (doc_value d) s))
    as [fv | e].
  - right. rewrite (bind_Return _ _ _ _ _ Hd).
    destruct (addExample_vector_frame fv (doc_label d) s)
      as (s1 & Hrun & Hdocs & Hlast & _).
    rewrite (bind_Return _ _ _ _ _ Hrun).
    eexists. split; [reflexivity |]. simpl. split; congruence.
  - left. exists e. now rewrite (bind_Throw _ _ _ _ _ Hd).
Qed.

(** The loop of [train], started at the cursor: it stops after [k]
    documents, either at the end of the log or on an iteration that
    throws and would throw again. *)
Lemma train_loop :
  forall (n a : nat) (s : NaiveBayes),
    lastAdded s = a ->
    exists (r : outcome unit) (s' : NaiveBayes) (k : nat),
      for_each (seq a n) (train_body tokenizeAndStem) s = (r, s') /\
      docs s' = docs s /\ lastAdded s' = a + k /\
      ((r = Return tt /\ k = n) \/
       (exists e, r = Throw e /\ k < n /\
                  train_body tokenizeAndStem (a + k) s' = (Throw e, s'))).
Proof.
  induction n as [| n IH]; intros a s Ha.
  - exists (Return tt), s, 0. simpl.
    split; [reflexivity |]. split; [reflexivity |]. split; [lia |].
    left. auto.
  - simpl. destruct (train_body_step a s)
      as [[e He] | (s1 & Hrun & Hdocs & Hlast)].
    + exists (Throw e), s, 0. rewrite (bind_Throw _ _ _ _ _ He).
      split; [reflexivity |]. split; [reflexivity |]. split; [lia |].
      right. exists e. rewrite Nat.add_0_r.
      split; [reflexivity |]. split; [lia | exact He].
    + rewrite (bind_Return _ _ _ _ _ Hrun).
      assert (H1 : lastAdded s1 = S a) by congruence.
      destruct (IH (S a) s1 H1) as (r & s' & k & Hfor & Hd & Hl & Hcase).
      exists r, s', (S k). rewrite Hfor.
      split; [reflexivity |]. split; [congruence |]. split; [lia |].
      destruct Hcase as [[-> ->] | (e & -> & Hk & Hb)].
      * left. auto.
      * right. exists e. split; [reflexivity |]. split; [lia |].
        now replace (a + S k) with (S a + k) by lia.
Qed.

(** C7.  A second [train()] with no document added since the first one
    changes nothing: the state it leaves (class feature counts, class
    totals, [totalExamples], the cursor [lastAdded] and all the rest) is
    the state the first call left, and it ends the way the first call
    ended. *)
Theorem train_twice_is_train :
  forall s : NaiveBayes,
    snd (train tokenizeAndStem (snd (train tokenizeAndStem s))) =
    snd (train tokenizeAndStem s) /\
    fst (train tokenizeAndStem (snd (train tokenizeAndStem s))) =
    fst (train tokenizeAndStem s).
Proof.
  intros s. rewrite (train_unfold s).
  destruct (train_loop (List.length (docs s) - lastAdded s) (lastAdded s) s
              eq_refl)
    as (r & s' & k & Hfor & Hd & Hl & Hcase).
  rewrite Hfor. simpl. rewrite train_unfold, Hd, Hl.
  destruct Hcase as [[-> ->] | (e & -> & Hk & Hb)].
  - replace (List.length (docs s) -
             (lastAdded s + (List.length (docs s) - lastAdded s)))
      with 0 by lia.
    simpl. auto.
  - destruct (List.length (docs s) - (lastAdded s + k)) as [| m] eqn:E;
      [lia |].
    simpl. rewrite (bind_Throw _ _ _ _ _ Hb). auto.
Qed.

End Train.

(** ** The laws hold of exact arithmetic *)

Lemma R_number_laws : JSNumberLaws R_number.
Proof.
  constructor; simpl.
  - apply exp_0.
  - intros x. apply Rmult_1_r.
  - intros a b. unfold R_positive, R_ltb.
    destruct (Rlt_dec 0 (b - a)), (Rlt_dec a b); auto; exfalso; lra.
  - intros a b. unfold R_ltb.
    destruct (Rlt_dec a b), (Rlt_dec b a); auto; try discriminate.
    exfalso; lra.
Qed.

(** ** Scoring a class *)

Section Scorer.

Import JsObject JsObjectFacts.

Context {Num : JSNumber}.
Variable tokenizeAndStem : string -> list string.

Lemma count_used_trained (l k : string) (o : t jsnum) (s : NaiveBayes) :
  get (classFeatures s) l = Some o ->
  count_used l k s =
  (Return (if truthy (get o k) then to_jsnum (get o k)
           else Int (smoothing s)), s).
Proof.
  intros H. unfold count_used, get_count, class_counts.
  rewrite !bind_bind, bind_gets, H, !bind_ret.
  now destruct (truthy (get o k)).
Qed.


Lemma log_term_trained (l k : string) (o : t jsnum) (p : num)
  (s : NaiveBayes) :
  get (classFeatures s) l = Some o ->
  log_term l k p s =
  (Return
     (nadd p
        (Math_log
           (ndiv
              (to_num (if truthy (get o k) then to_jsnum (get o k)
                       else Int (smoothing s)))
              (to_num (to_jsnum (get (classTotals s) l)))))), s).
Proof.
  intros H. unfold log_term.
  now rewrite (bind_Return _ _ _ _ _ (count_used_trained l k o s H)).
Qed.


Lemma probabilityOfClass_vector (v : list Z) (l : string) (s : NaiveBayes) :
  probabilityOfClass (FArray v) l s =
  bind (score_loop v l (List.length v) (of_N 0))
    (fun prob =>
       ret (nmul
              (ndiv (to_num (to_jsnum (get (classTotals s) l)))
                 (of_N (totalExamples s)))
              (Math_exp prob))) s.
Proof.
  unfold probabilityOfClass.
  assert (Hro : read_only (score_loop v l (List.length v) (of_N 0))).
  { unfold score_loop. apply read_only_while_dec. intros i acc.
    destruct (truthy_Z (nth i v 0%Z));
      [apply log_term_read_only | apply read_only_ret]. }
  pose proof (read_only_run _ s Hro) as Hrun.
  destruct (fst (score_loop v l (List.length v) (of_N 0) s)) as [p | e].
  - now rewrite !(bind_Return _ _ _ _ _ Hrun).
  - now rewrite !(bind_Throw _ _ _ _ _ Hrun).
Qed.

Lemma score_loop_absent (v : list Z) (l : string) :
  forall (n : nat) (p : num) (s : NaiveBayes),
    (forall i, i < n -> truthy_Z (nth i v 0%Z) = false) ->
    score_loop v l n p s = (Return p, s).
Proof.
  unfold score_loop.
  induction n as [| n IH]; intros p s H; simpl; [reflexivity |].
  rewrite (H n) by lia. rewrite bind_ret. apply IH. intros i Hi.
  apply H. lia.
Qed.

Lemma score_loop_floor (v : list Z) (l : string) (o : t jsnum) :
  forall (n : nat) (p : num) (s : NaiveBayes),
    get (classFeatures s) l = Some o ->
    (forall i, i < n -> truthy_Z (nth i v 0%Z) = true ->
               get o (index_key i) = None) ->
    score_loop v l n p s =
    (Return
       (floor_sum
          (Math_log
             (ndiv (of_N (smoothing s))
                (to_num (to_jsnum (get (classTotals s) l)))))
          v n p), s).
Proof.
  unfold score_loop.
  induction n as [| n IH]; intros p s Ho H; simpl; [reflexivity |].
  destruct (truthy_Z (nth n v 0%Z)) eqn:E.
  - rewrite (bind_Return _ _ _ _ _
               (log_term_trained l (index_key n) o p s Ho)).
    rewrite (H n) by (auto; lia). simpl.
    apply IH; [exact Ho |]. intros i Hi. apply H. lia.
  - rewrite bind_ret. apply IH; [exact Ho |]. intros i Hi. apply H. lia.
Qed.


Lemma score_loop_trained (v : list Z) (l : string) (o : t jsnum) :
  forall (n : nat) (p : num) (s : NaiveBayes),
    get (classFeatures s) l = Some o ->
    exists p' : num, score_loop v l n p s = (Return p', s).
Proof.
  unfold score_loop.
  induction n as [| n IH]; intros p s Ho; simpl; [now exists p |].
  destruct (truthy_Z (nth n v 0%Z)).
  - rewrite (bind_Return _ _ _ _ _
               (log_term_trained l (index_key n) o p s Ho)).
    now apply IH.
  - rewrite bind_ret. now apply IH.
Qed.

Lemma all_zero_absent (v : list Z) (i : nat) :
  Forall (fun x => x = 0%Z) v -> truthy_Z (nth i v 0%Z) = false.
Proof.
  intros H. revert i. induction H as [| x v -> _ IH]; intros [| i]; simpl;
    auto.
Qed.

Context {Laws : JSNumberLaws Num}.

(** C3.  When the feature vector has no present feature, the value
    [probabilityOfClass] returns for a class whose total is [t] is exactly
    [t / totalExamples], the bare prior. *)
Theorem probabilityOfClass_prior :
  forall (v : list Z) (l : string) (t : N) (s : NaiveBayes),
    Forall (fun x => x = 0%Z) v ->
    get (classTotals s) l = Some (Int t) ->
    probabilityOfClass (FArray v) l s =
    (Return (ndiv (of_N t) (of_N (totalExamples s))), s).
Proof.
  intros v l t s Hv Ht. rewrite probabilityOfClass_vector.
  rewrite (bind_Return _ _ _ _ _
             (score_loop_absent v l (List.length v) (of_N 0) s
                (fun i _ => all_zero_absent v i Hv))).
  unfold ret. rewrite Ht. simpl. now rewrite Math_exp_0, nmul_1_r.
Qed.

End Scorer.

(** ** The smoothing floor *)

Section Floor.

Import JsObject JsObjectFacts.

Context {Num : JSNumber}.
Variable tokenizeAndStem : string -> list string.

(** A vector whose present features were never recorded for a trained
    class is scored with the smoothing constant at each of them. *)
Lemma probabilityOfClass_floor (v : list Z) (l : string) (o : t jsnum)
  (s : NaiveBayes) :
  get (classFeatures s) l = Some o ->
  (forall i, present v i = true -> get o (index_key i) = None) ->
  probabilityOfClass (FArray v) l s =
  (Return
     (nmul
        (ndiv (to_num (to_jsnum (get (classTotals s) l)))
           (of_N (totalExamples s)))
        (Math_exp
           (floor_sum
              (Math_log
                 (ndiv (of_N (smoothing s))
                    (to_num (to_jsnum (get (classTotals s) l)))))
              v (List.length v) (of_N 0)))), s).
Proof.
  intros Ho H. rewrite probabilityOfClass_vector.
  rewrite (bind_Return _ _ _ _ _
             (score_loop_floor v l o (List.length v) (of_N 0) s Ho
                (fun i Hi Hp =>
                   H i (proj2 (andb_true_iff _ _)
                          (conj (proj2 (Nat.ltb_lt _ _) Hi) Hp))))).
  reflexivity.
Qed.



End Floor.

(** ** Ranking *)

Section Ranking.

Import JsObject JsObjectFacts.

Context {Num : JSNumber}.
Variable tokenizeAndStem : string -> list string.

Lemma insert_index_In (n m : N) (k k' : string) (l : list (N * string)) :
  In (m, k') (insert_index n k l) -> (m, k') = (n, k) \/ In (m, k') l.
Proof.
  induction l as [| [n0 k0] l IH]; simpl.
  - intros [H | []]. left. now symmetry.
  - destruct (n <=? n0)%N; simpl.
    + intros [H | H]; [left; now symmetry | right; exact H].
    + intros [H | H]; [right; left; exact H |].
      destruct (IH H) as [E | Hin]; [left; exact E | right; right; exact Hin].
Qed.

Lemma index_keys_In {V : Type} (o : t V) (n : N) (k : string) :
  In (n, k) (index_keys o) -> In k (map fst o).
Proof.
  induction o as [| [k0 v0] o IH]; simpl; [tauto |].
  destruct (array_index k0) as [n0 |].
  - intros H. apply insert_index_In in H as [[= -> ->] | H]; auto.
  - auto.
Qed.

(** [for ... in] only visits own properties. *)
Lemma keys_In {V : Type} (o : t V) (k : string) :
  In k (keys o) -> get o k <> None.
Proof.
  intros H.
  assert (Hk : In k (map fst o)).
  { unfold keys in H. apply in_app_or in H as [H | H].
    - apply in_map_iff in H as ([n k'] & <- & H). simpl.
      now apply index_keys_In in H.
    - unfold name_keys in H. now apply filter_In in H as [H _]. }
  clear H. induction o as [| [k0 v0] o IH]; simpl in *; [tauto |].
  destruct (String.eqb_spec k k0) as [-> | Hne]; [discriminate |].
  destruct Hk as [E | Hk]; [congruence | auto].
Qed.

(** A loop that pushes the results of a read-only body. *)
Lemma for_push_Forall2 {A B : Type} (f : A -> M B) (s : NaiveBayes) :
  forall l : list A,
    (forall x, In x l -> exists y, f x s = (Return y, s)) ->
    exists ys : list B,
      for_push l f s = (Return ys, s) /\
      Forall2 (fun x y => f x s = (Return y, s)) l ys.
Proof.
  induction l as [| x l IH]; intros H; simpl.
  - exists []. split; [reflexivity | constructor].
  - destruct (H x (or_introl eq_refl)) as (y & Hy).
    destruct IH as (ys & Hys & HF); [intros z Hz; apply H; now right |].
    exists (y :: ys). split.
    + rewrite (bind_Return _ _ _ _ _ Hy), (bind_Return _ _ _ _ _ Hys).
      reflexivity.
    + constructor; assumption.
Qed.

Lemma docToFeatures_document (doc : jsval string) (s : NaiveBayes) :
  is_document doc = true ->
  exists fv : list Z, docToFeatures tokenizeAndStem doc s = (Return fv, s).
Proof.
  intros Hd. unfold docToFeatures. rewrite bind_gets.
  assert (H : exists a : list string,
             match doc with
             | JString s0 => JArray (tokenizeAndStem s0)
             | _ => doc
             end = JArray a).
  { destruct doc; try discriminate; eauto. }
  destruct H as (a & ->).
  destruct (for_push_Forall2
              (fun feature =>
                 i <- lift (indexOf (JArray a) feature) ;;
                 ret (Number (negb (negb (truthy_Z (Z.lnot i))))))
              s (keys (features s))) as (ys & Hys & _).
  - intros x _. eexists. reflexivity.
  - now exists ys.
Qed.

Lemma probabilityOfClass_trained (v : list Z) (l : string) (s : NaiveBayes) :
  get (classFeatures s) l <> None ->
  exists p : num, probabilityOfClass (FArray v) l s = (Return p, s).
Proof.
  intros Hl. destruct (get (classFeatures s) l) as [o |] eqn:E;
    [| congruence].
  destruct (score_loop_trained v l o (List.length v) (of_N 0) s E)
    as (p & Hp).
  rewrite probabilityOfClass_vector, (bind_Return _ _ _ _ _ Hp).
  eexists. reflexivity.
Qed.

Lemma insert_sorted_Permutation
  (cmp : classification -> classification -> num) (x : classification)
  (l : list classification) :
  Permutation (insert_sorted cmp x l) (x :: l).
Proof.
  induction l as [| y l IH]; simpl; [reflexivity |].
  destruct (positive (cmp x y)); [| reflexivity].
  rewrite IH. apply perm_swap.
Qed.

Lemma sort_Permutation (cmp : classification -> classification -> num)
  (l : list classification) :
  Permutation (sort cmp l) l.
Proof.
  induction l as [| x l IH]; simpl; [reflexivity |].
  rewrite insert_sorted_Permutation. now constructor.
Qed.


Context {Laws : JSNumberLaws Num}.

Lemma insert_sorted_Sorted (x : classification) (l : list classification) :
  Sorted not_below l -> Sorted not_below (insert_sorted by_value x l).
Proof.
  intros H. induction H as [| y l Hs IH Hd]; simpl.
  - repeat constructor.
  - unfold by_value at 1. rewrite positive_nsub.
    destruct (nltb (value x) (value y)) eqn:E.
    + constructor; [exact IH |].
      destruct l as [| z l]; simpl.
      * constructor. now apply nltb_asym.
      * unfold by_value at 1. rewrite positive_nsub.
        destruct (nltb (value x) (value z)).
        -- inversion Hd; subst. now constructor.
        -- constructor. now apply nltb_asym.
    + constructor; [now constructor | constructor; exact E].
Qed.

Lemma sort_Sorted (l : list classification) :
  Sorted not_below (sort by_value l).
Proof.
  induction l as [| x l IH]; simpl; [constructor |].
  now apply insert_sorted_Sorted.
Qed.


End Ranking.

(** ** Adding documents *)

Section Documents.

Import JsObject JsObjectFacts.

Variable tokenizeAndStem : string -> list string.

(** Empty documents and values without a length are skipped. *)
Lemma addDocument_skips (l : string) (s : NaiveBayes) :
  addDocument tokenizeAndStem (JString "") l s = (Return tt, s) /\
  addDocument tokenizeAndStem (JArray []) l s = (Return tt, s) /\
  addDocument tokenizeAndStem JUndefined l s = (Return tt, s) /\
  addDocument tokenizeAndStem JObject l s = (Return tt, s) /\
  (forall b, addDocument tokenizeAndStem (JBoolean b) l s = (Return tt, s)) /\
  (forall z, addDocument tokenizeAndStem (JNumber z) l s = (Return tt, s)).
Proof. repeat split. Qed.

(** C8 at [null].  [_size] takes [null] for an object and reads its
    [length]: [addDocument(null, label)] leaves the state as it was, but by
    throwing a TypeError instead of returning. *)
Theorem addDocument_null_throws :
  forall (l : string) (s : NaiveBayes),
    _size (@JNull string) = Throw TypeError /\
    addDocument tokenizeAndStem JNull l s = (Throw TypeError, s).
Proof. intros l s. split; reflexivity. Qed.

(** The loop of [addDocument] over the stems. *)
Lemma add_stems_run (stems : list string) :
  forall s : NaiveBayes,
    for_each stems
      (fun stem => modify (set_features (fun f => set f stem 1%N))) s =
    (Return tt,
     set_features
       (fun f => fold_left (fun f stem => set f stem 1%N) stems f) s).
Proof.
  induction stems as [| x stems IH]; intros s; simpl.
  - unfold ret. now destruct s.
  - rewrite bind_modify, IH. reflexivity.
Qed.

Lemma get_existsb {V : Type} (o : t V) (k : string) :
  existsb (String.eqb k) (map fst o) =
  match get o k with Some _ => true | None => false end.
Proof.
  induction o as [| [k0 v0] o IH]; simpl; [reflexivity |].
  destruct (String.eqb k k0); [reflexivity | exact IH].
Qed.

(** Assigning stems to the vocabulary object creates properties in the
    order of first observation. *)
Lemma add_stems_observe (stems : list string) :
  forall f : t N,
    map fst (fold_left (fun f stem => set f stem 1%N) stems f) =
    observe (map fst f) stems.
Proof.
  induction stems as [| x stems IH]; intros f; simpl; [reflexivity |].
  rewrite IH. f_equal. rewrite get_existsb.
  destruct (get f x) eqn:E.
  - apply get_Some_set_fst. congruence.
  - rewrite (get_None_set _ _ _ E), map_app. reflexivity.
Qed.

(** A non-empty sequence of stems is logged and its stems are observed. *)
Lemma addDocument_sequence (x : string) (a : list string) (l : string)
  (s : NaiveBayes) :
  exists s' : NaiveBayes,
    addDocument tokenizeAndStem (JArray (x :: a)) l s = (Return tt, s') /\
    docs s' = docs s ++ [{| doc_label := l; doc_value := JArray (x :: a) |}] /\
    map fst (features s') = observe (map fst (features s)) (x :: a).
Proof.
  unfold addDocument, _size. cbn [_isArray orb length_of elements].
  rewrite bind_lift_Return. cbn [not_size List.length].
  rewrite bind_modify, bind_lift_Return, add_stems_run.
  eexists. split; [reflexivity |]. split; [reflexivity |].
  cbn [features set_features set_docs]. apply add_stems_observe.
Qed.

Lemma index_from_absent (a : list string) (x : string) (i : Z) :
  existsb (String.eqb x) a = false -> index_from a x i = (-1)%Z.
Proof.
  revert i. induction a as [| y a IH]; intros i; simpl; [reflexivity |].
  rewrite String.eqb_sym. destruct (String.eqb y x); [discriminate |].
  apply IH.
Qed.

Lemma index_from_present (a : list string) (x : string) (i : Z) :
  existsb (String.eqb x) a = true -> (0 <= i)%Z ->
  (0 <= index_from a x i)%Z.
Proof.
  revert i. induction a as [| y a IH]; intros i; simpl; [discriminate |].
  rewrite String.eqb_sym. destruct (String.eqb y x); [auto |].
  intros H Hi. apply IH; [exact H | lia].
Qed.

(** [Number(!!~doc.indexOf(feature))] is 1 exactly when the stem occurs. *)
Lemma presence_bit (a : list string) (x : string) :
  Number (negb (negb (truthy_Z (Z.lnot (index_from a x 0))))) =
  Number (existsb (String.eqb x) a).
Proof.
  rewrite negb_involutive. unfold truthy_Z.
  destruct (existsb (String.eqb x) a) eqn:E.
  - pose proof (index_from_present a x 0 E (Z.le_refl 0)) as H.
    destruct (Z.eqb_spec (Z.lnot (index_from a x 0)) 0) as [H0 | H0];
      [| reflexivity].
    unfold Z.lnot in H0. lia.
  - now rewrite (index_from_absent a x 0 E).
Qed.

(** For a sequence of stems, [docToFeatures] returns one 0/1 entry per
    vocabulary property, in [for ... in] order, the entry being 1 exactly
    when the sequence contains that stem. *)
Lemma docToFeatures_sequence (a : list string) (s : NaiveBayes) :
  docToFeatures tokenizeAndStem (JArray a) s =
  (Return (presence (keys (features s)) a), s).
Proof.
  unfold docToFeatures, presence. rewrite bind_gets.
  induction (keys (features s)) as [| k ks IH]; simpl; [reflexivity |].
  rewrite bind_bind, bind_lift_Return, bind_ret.
  rewrite (bind_Return _ _ _ _ _ IH). unfold ret. now rewrite presence_bit.
Qed.

(** When no stem of the vocabulary is an array index, the vector follows
    the order in which the stems were first observed. *)
Lemma docToFeatures_insertion_order (a : list string) (s : NaiveBayes) :
  Forall (fun k => is_index k = false) (map fst (features s)) ->
  docToFeatures tokenizeAndStem (JArray a) s =
  (Return (presence (map fst (features s)) a), s).
Proof.
  intros H. rewrite docToFeatures_sequence. now rewrite keys_no_index.
Qed.

(** C9 at a numeric stem.  After [addDocument(["b", "1"], "pos")] on a new
    classifier the stems were first observed in the order b, 1, so the
    vector of the document [["b"]] over the vocabulary in insertion order is
    [[1, 0]]; but [for ... in] visits the property ["1"] first and
    [docToFeatures(["b"])] returns [[0, 1]]. *)
Theorem docToFeatures_numeric_stem_first :
  map fst (features logged_numeric) = observe [] ["b"; "1"] /\
  presence (observe [] ["b"; "1"]) ["b"] = [1%Z; 0%Z] /\
  keys (features logged_numeric) = ["1"; "b"] /\
  fst (docToFeatures tokenizeAndStem (JArray ["b"]) logged_numeric) =
  Return [0%Z; 1%Z].
Proof. repeat split. Qed.

(** A numeric stem added later moves the stems already trained: the count
    recorded for "b" under position 0 is found under position 1 by the
    next vector, and position 0 now stands for "1". *)
Lemma numeric_stem_shifts_positions :
  fst (docToFeatures tokenizeAndStem (JArray ["b"]) trained_b) =
  Return [1%Z] /\
  get (classFeatures trained_b) "x" = Some [(index_key 0, Int 2)] /\
  fst (docToFeatures tokenizeAndStem (JArray ["b"]) trained_b_then_1) =
  Return [0%Z; 1%Z] /\
  get (classFeatures trained_b_then_1) "x" = Some [(index_key 0, Int 2)].
Proof. repeat split. Qed.

End Documents.

(** ** Training returns *)

Section TrainReturns.

Import JsObject JsObjectFacts.

Variable tokenizeAndStem : string -> list string.

Lemma bump_docs_are_sequences (l k : string) :
  preserves docs_are_sequences (bump l k).
Proof.
  intros s H. destruct (get (classFeatures s) l) as [o |] eqn:E.
  - now rewrite (bump_run l k o s E).
  - unfold bump, get_count, class_counts.
    now rewrite !bind_bind, bind_gets, E.
Qed.

Lemma addExample_docs_are_sequences (f : featureArg) (l : string) :
  preserves docs_are_sequences (addExample f l).
Proof.
  unfold addExample.
  apply preserves_bind; [apply preserves_read_only, read_only_gets |].
  intros cf. apply preserves_bind.
  - destruct (get cf l).
    + apply preserves_read_only, read_only_ret.
    + apply preserves_bind; [| intros _];
        apply preserves_modify; intros s H; exact H.
  - intros _. apply preserves_bind;
      [apply preserves_modify; intros s H; exact H |].
    intros _. destruct f as [v | m].
    + apply preserves_bind; [apply preserves_modify; intros s H; exact H |].
      intros _. apply preserves_while_dec. intros i _.
      destruct (truthy_Z (nth i v 0%Z)).
      * apply bump_docs_are_sequences.
      * apply preserves_read_only, read_only_ret.
    + apply preserves_for_each. intros key. apply bump_docs_are_sequences.
Qed.

Lemma addDocument_docs_are_sequences (doc : jsval string) (l : string) :
  preserves docs_are_sequences (addDocument tokenizeAndStem doc l).
Proof.
  intros s H. unfold addDocument.
  destruct doc as [| | b | z | str | a |]; try exact H.
  - (* a string *)
    unfold _size. cbn [_isArray _isString orb length_of].
    rewrite bind_lift_Return.
    destruct (String.length str); [exact H |]. cbn [not_size elements].
    rewrite bind_modify, bind_lift_Return, add_stems_run. simpl.
    apply Forall_app. split; [exact H |]. repeat constructor. simpl. eauto.
  - (* a sequence *)
    unfold _size. cbn [_isArray _isString orb length_of].
    rewrite bind_lift_Return.
    destruct a as [| x a]; [exact H |]. cbn [not_size List.length elements].
    rewrite bind_modify, bind_lift_Return, add_stems_run. simpl.
    apply Forall_app. split; [exact H |]. repeat constructor. simpl. eauto.
Qed.

Lemma train_body_returns (i : nat) (s : NaiveBayes) :
  docs_are_sequences s -> i < List.length (docs s) ->
  exists s', train_body tokenizeAndStem i s = (Return tt, s').
Proof.
  intros H Hi. unfold train_body. rewrite bind_gets.
  destruct (nth_error (docs s) i) as [d |] eqn:E;
    [| apply nth_error_None in E; lia].
  unfold docs_are_sequences in H. rewrite Forall_forall in H.
  destruct (H d (nth_error_In _ _ E)) as (a & ->).
  rewrite (bind_Return _ _ _ _ _ (docToFeatures_sequence _ a s)).
  destruct (addExample_vector_frame (presence (keys (features s)) a)
              (doc_label d) s) as (s1 & Hrun & _).
  rewrite (bind_Return _ _ _ _ _ Hrun). eexists. reflexivity.
Qed.

(** When the log holds sequences of stems, as it does after any calls,
    [train] returns, with the cursor at the end of the log. *)
Lemma train_returns (s : NaiveBayes) :
  docs_are_sequences s ->
  exists s', train tokenizeAndStem s = (Return tt, s') /\
             docs s' = docs s /\
             lastAdded s' = Nat.max (lastAdded s) (List.length (docs s)).
Proof.
  intros H. rewrite train_unfold.
  destruct (train_loop tokenizeAndStem
              (List.length (docs s) - lastAdded s) (lastAdded s) s eq_refl)
    as (r & s' & k & Hfor & Hd & Hl & Hcase).
  rewrite Hfor.
  destruct Hcase as [[-> ->] | (e & -> & Hk & Hb)].
  - exists s'. split; [reflexivity |]. split; [exact Hd | lia].
  - exfalso.
    destruct (train_body_returns (lastAdded s + k) s') as (s2 & Hs2).
    + unfold docs_are_sequences. now rewrite Hd.
    + rewrite Hd. lia.
    + congruence.
Qed.

Lemma reachable_docs_are_sequences (s : NaiveBayes) :
  reachable tokenizeAndStem s -> docs_are_sequences s.
Proof.
  induction 1 as [| s c Hr IH].
  - constructor.
  - destruct c as [doc l | ds l | | f l]; simpl.
    + now apply addDocument_docs_are_sequences.
    + revert IH. unfold addDocuments. apply preserves_for_each.
      intros doc. apply addDocument_docs_are_sequences.
    + destruct (train_returns s IH) as (s' & Hrun & Hd & _).
      rewrite Hrun. simpl. unfold docs_are_sequences. now rewrite Hd.
    + now apply addExample_docs_are_sequences.
Qed.

(** A document sharing no stem with the vocabulary has a vector without
    present feature. *)
Lemma docToFeatures_no_overlap (a : list string) (s : NaiveBayes) :
  (forall k, In k (keys (features s)) -> ~ In k a) ->
  exists v : list Z,
    docToFeatures tokenizeAndStem (JArray a) s = (Return v, s) /\
    Forall (fun x => x = 0%Z) v.
Proof.
  intros H. exists (presence (keys (features s)) a).
  split; [apply docToFeatures_sequence |].
  unfold presence. apply Forall_map, Forall_forall. intros k Hk.
  destruct (existsb (String.eqb k) a) eqn:E; [| reflexivity].
  apply existsb_exists in E as (x & Hx & Hxk).
  apply String.eqb_eq in Hxk. subst x. now apply H in Hk.
Qed.

End TrainReturns.

(** ** The prior of a document without known stems *)

Section PriorOfDocument.

Import JsObject JsObjectFacts.

Context {Num : JSNumber} {Laws : JSNumberLaws Num}.
Variable tokenizeAndStem : string -> list string.

(** The value [getClassifications] computes for a class, for a sequence of
    stems none of which is in the vocabulary. *)
Lemma prior_of_unknown_document (a : list string) (l : string) (t : N)
  (s : NaiveBayes) :
  (forall k, In k (keys (features s)) -> ~ In k a) ->
  get (classTotals s) l = Some (Int t) ->
  bind (docToFeatures tokenizeAndStem (JArray a))
    (fun fv => probabilityOfClass (FArray fv) l) s =
  (Return (ndiv (of_N t) (of_N (totalExamples s))), s).
Proof.
  intros Ha Ht.
  destruct (docToFeatures_no_overlap tokenizeAndStem a s Ha)
    as (v & Hv & Hz).
  rewrite (bind_Return _ _ _ _ _ Hv).
  unfold probabilityOfClass.
  rewrite (bind_Return _ _ _ _ _
             (score_loop_absent v l (List.length v) (of_N 0) s
                (fun i _ => all_zero_absent v i Hz))).
  rewrite !bind_gets. unfold ret. rewrite Ht. simpl.
  now rewrite Math_exp_0, nmul_1_r.
Qed.

End PriorOfDocument.

(** ** Concrete runs *)


(** The prior of the trained class on a vector without present feature. *)
Lemma probabilityOfClass_prior_trained_pos :
  Forall (fun x => x = 0%Z) [0%Z; 0%Z; 0%Z; 0%Z] /\
  JsObject.get (classTotals trained_pos) "pos" = Some (Int 3) /\
  @probabilityOfClass R_number (FArray [0%Z; 0%Z; 0%Z; 0%Z]) "pos"
    trained_pos =
  (Return (@ndiv R_number (of_N 3) (of_N (totalExamples trained_pos))),
   trained_pos).
Proof.
  split; [repeat constructor |]. split; [vm_compute; reflexivity |].
  apply (@probabilityOfClass_prior R_number R_number_laws).
  - repeat constructor.
  - vm_compute; reflexivity.
Defined.





(** ** The end-to-end scenario, in exact arithmetic *)

Lemma exp_seen_twice : exp (0 + ln (3 / 3) + ln (3 / 3)) = 1%R.
Proof.
  replace (3 / 3)%R with 1%R by lra. rewrite ln_1.
  replace (0 + 0 + 0)%R with 0%R by lra. apply exp_0.
Qed.

Lemma exp_unseen_once : exp (0 + ln (1 / 3) + ln (3 / 3)) = (1 / 3)%R.
Proof.
  replace (3 / 3)%R with 1%R by lra. rewrite ln_1.
  replace (0 + ln (1 / 3) + 0)%R with (ln (1 / 3)) by lra.
  apply exp_ln. lra.
Qed.

(** Trained on "i love cats", "i love dogs" as pos and "i hate cats",
    "i hate dogs" as neg, the classifier ranks pos first for "i love
    parrots" (3/5 against 1/5) and neg first for "i hate parrots". *)
Example classify_end_to_end :
  fst (@classify R_number words (JString "i love parrots") trained_pos_neg) =
  Return "pos" /\
  fst (@classify R_number words (JString "i hate parrots") trained_pos_neg) =
  Return "neg".
Proof.
  split.
  - lazy -[Rplus Rminus Rmult Rdiv ln exp IZR Rlt_dec Rinv].
    rewrite exp_seen_twice, exp_unseen_once.
    destruct (Rlt_dec 0 (3 / 5 * (1 / 3) - 3 / 5 * 1)) as [H | H];
      [exfalso; lra | reflexivity].
  - lazy -[Rplus Rminus Rmult Rdiv ln exp IZR Rlt_dec Rinv].
    rewrite exp_seen_twice, exp_unseen_once.
    destruct (Rlt_dec 0 (3 / 5 * 1 - 3 / 5 * (1 / 3))) as [H | H];
      [reflexivity | exfalso; lra].
Qed.

(** * Further properties of the classifier *)

(** ** Steps related to the state they start from *)

Section MovesBy.

Variable R : NaiveBayes -> NaiveBayes -> Prop.
Hypothesis R_refl : forall s, R s s.
Hypothesis R_trans : forall s1 s2 s3, R s1 s2 -> R s2 s3 -> R s1 s3.

Lemma moves_by_read_only {A : Type} (m : M A) : read_only m -> moves_by R m.
Proof. intros H s. rewrite H. apply R_refl. Qed.

Lemma moves_by_modify (f : NaiveBayes -> NaiveBayes) :
  (forall s, R s (f s)) -> moves_by R (modify f).
Proof. intros H s. apply H. Qed.

Lemma moves_by_bind {A B : Type} (m : M A) (k : A -> M B) :
  moves_by R m -> (forall a, moves_by R (k a)) -> moves_by R (bind m k).
Proof.
  intros Hm Hk s. unfold bind. specialize (Hm s).
  destruct (m s) as [[a | e] s']; simpl in *; [| exact Hm].
  exact (R_trans _ _ _ Hm (Hk a s')).
Qed.

Lemma moves_by_for_each {A : Type} (l : list A) (body : A -> M unit) :
  (forall x, moves_by R (body x)) -> moves_by R (for_each l body).
Proof.
  intros Hb. induction l as [| x l IH]; simpl.
  - intros s. apply R_refl.
  - apply moves_by_bind; [apply Hb | intros _; exact IH].
Qed.

Lemma moves_by_while_dec {A : Type} (n : nat) (body : nat -> A -> M A) :
  (forall i acc, moves_by R (body i acc)) ->
  forall acc, moves_by R (while_dec n body acc).
Proof.
  intros Hb. induction n as [| i IH]; intros acc; simpl.
  - intros s. apply R_refl.
  - apply moves_by_bind; [apply Hb | exact IH].
Qed.

End MovesBy.

(** ** Fields a method does not assign *)

Section Frames.

Import JsObject JsObjectFacts.

Context {Num : JSNumber}.
Variable tokenizeAndStem : string -> list string.
Variable P : NaiveBayes -> Prop.

Lemma bump_preserves (l k : string) :
  (forall f s, P s -> P (set_classFeatures f s)) -> preserves P (bump l k).
Proof.
  intros Hcf s H. destruct (get (classFeatures s) l) as [o |] eqn:E.
  - rewrite (bump_run l k o s E). now apply Hcf.
  - unfold bump, get_count, class_counts.
    now rewrite !bind_bind, bind_gets, E.
Qed.

(** [addExample] only assigns the class counts, the class totals and the
    example total. *)
Lemma addExample_preserves (f : featureArg) (l : string) :
  (forall g s, P s -> P (set_classFeatures g s)) ->
  (forall g s, P s -> P (set_classTotals g s)) ->
  (forall g s, P s -> P (set_totalExamples g s)) ->
  preserves P (addExample f l).
Proof.
  intros Hcf Hct Hte. unfold addExample.
  apply preserves_bind; [apply preserves_read_only, read_only_gets |].
  intros cf. apply preserves_bind.
  - destruct (get cf l).
    + apply preserves_read_only, read_only_ret.
    + apply preserves_bind; [| intros _]; apply preserves_modify; auto.
  - intros _. apply preserves_bind; [apply preserves_modify; auto |].
    intros _. destruct f as [v | m].
    + apply preserves_bind; [apply preserves_modify; auto |].
      intros _. apply preserves_while_dec. intros i _.
      destruct (truthy_Z (nth i v 0%Z)).
      * now apply bump_preserves.
      * apply preserves_read_only, read_only_ret.
    + apply preserves_for_each. intros key. now apply bump_preserves.
Qed.

(** [addDocument] only assigns the log and the vocabulary. *)
Lemma addDocument_preserves (doc : jsval string) (l : string) :
  (forall g s, P s -> P (set_docs g s)) ->
  (forall g s, P s -> P (set_features g s)) ->
  preserves P (addDocument tokenizeAndStem doc l).
Proof.
  intros Hd Hf. unfold addDocument.
  apply preserves_bind; [apply preserves_read_only, read_only_lift |].
  intros sz. destruct (not_size sz).
  - apply preserves_read_only, read_only_ret.
  - apply preserves_bind; [apply preserves_modify; auto |]. intros _.
    apply preserves_bind; [apply preserves_read_only, read_only_lift |].
    intros stems. apply preserves_for_each. intros stem.
    apply preserves_modify; auto.
Qed.

Lemma addDocuments_preserves (ds : list (jsval string)) (l : string) :
  (forall g s, P s -> P (set_docs g s)) ->
  (forall g s, P s -> P (set_features g s)) ->
  preserves P (addDocuments tokenizeAndStem ds l).
Proof.
  intros Hd Hf. unfold addDocuments. apply preserves_for_each. intros doc.
  now apply addDocument_preserves.
Qed.


(** [train] assigns what [addExample] assigns, and the cursor. *)
Lemma train_preserves :
  (forall f l, preserves P (addExample f l)) ->
  (forall g s, P s -> P (set_lastAdded g s)) ->
  preserves P (train tokenizeAndStem).
Proof.
  intros Ha Hl. unfold train, for_range.
  apply preserves_bind; [apply preserves_read_only, read_only_gets |].
  intros totalDocs.
  apply preserves_bind; [apply preserves_read_only, read_only_gets |].
  intros start. apply preserves_for_each. intros i. unfold train_body.
  apply preserves_bind; [apply preserves_read_only, read_only_gets |].
  intros all. destruct (nth_error all i) as [d |].
  - apply preserves_bind;
      [apply preserves_read_only, docToFeatures_read_only |].
    intros fv. apply preserves_bind; [apply Ha |].
    intros _. apply preserves_modify; auto.
  - apply preserves_read_only, read_only_throw.
Qed.

End Frames.

(** ** The log and the vocabulary only grow *)

Section Growth.

Import JsObject JsObjectFacts.

Variable tokenizeAndStem : string -> list string.

Lemma map_fst_set {V : Type} (o : t V) (k : string) (v : V) :
  map fst (set o k v) =
  map fst o ++ match get o k with Some _ => [] | None => [k] end.
Proof.
  destruct (get o k) eqn:E.
  - rewrite get_Some_set_fst by congruence. now rewrite app_nil_r.
  - rewrite (get_None_set _ _ _ E), map_app. reflexivity.
Qed.

Lemma get_In_keys {V : Type} (o : t V) (k : string) :
  get o k <> None <-> In k (map fst o).
Proof.
  pose proof (get_existsb o k) as H. split.
  - intros Hg. destruct (get o k); [| congruence].
    apply existsb_exists in H as (x & Hx & E).
    apply String.eqb_eq in E. now subst.
  - intros Hin. destruct (get o k); [discriminate |].
    assert (E : existsb (String.eqb k) (map fst o) = true).
    { apply existsb_exists. exists k. split; [exact Hin |].
      apply String.eqb_refl. }
    congruence.
Qed.

Lemma extends_refl (s : NaiveBayes) : extends s s.
Proof. split; exists []; now rewrite app_nil_r. Qed.

Lemma extends_trans (s1 s2 s3 : NaiveBayes) :
  extends s1 s2 -> extends s2 s3 -> extends s1 s3.
Proof.
  intros [(d1 & Hd1) (f1 & Hf1)] [(d2 & Hd2) (f2 & Hf2)]. split.
  - exists (d1 ++ d2). now rewrite Hd2, Hd1, app_assoc.
  - exists (f1 ++ f2). now rewrite Hf2, Hf1, app_assoc.
Qed.

Lemma addDocument_extends (doc : jsval string) (l : string) :
  moves_by extends (addDocument tokenizeAndStem doc l).
Proof.
  unfold addDocument.
  apply (moves_by_bind _ extends_trans);
    [apply (moves_by_read_only _ extends_refl), read_only_lift |].
  intros sz. destruct (not_size sz).
  - apply (moves_by_read_only _ extends_refl), read_only_ret.
  - apply (moves_by_bind _ extends_trans).
    + apply moves_by_modify. intros s. split; simpl.
      * eexists. reflexivity.
      * exists []. now rewrite app_nil_r.
    + intros _. apply (moves_by_bind _ extends_trans);
        [apply (moves_by_read_only _ extends_refl), read_only_lift |].
      intros stems. apply (moves_by_for_each _ extends_refl extends_trans).
      intros stem. apply moves_by_modify. intros s. split; simpl.
      * exists []. now rewrite app_nil_r.
      * eexists. apply map_fst_set.
Qed.

Lemma addDocuments_extends (ds : list (jsval string)) (l : string) :
  moves_by extends (addDocuments tokenizeAndStem ds l).
Proof.
  unfold addDocuments. apply (moves_by_for_each _ extends_refl extends_trans).
  intros doc. apply addDocument_extends.
Qed.

Lemma addExample_extends (f : featureArg) (l : string) :
  moves_by extends (addExample f l).
Proof.
  intros s.
  apply (addExample_preserves (extends s) f l); try (intros g s' H; exact H).
  apply extends_refl.
Qed.

Lemma train_extends : moves_by extends (train tokenizeAndStem).
Proof.
  intros s. apply (train_preserves tokenizeAndStem (extends s)).
  - intros f l s' H.
    apply (addExample_preserves (extends s) f l);
      try (intros g s'' H'; exact H'); exact H.
  - intros g s' H. exact H.
  - apply extends_refl.
Qed.

(** X1.  Whatever call is made, and whether it returns or throws, the
    document log and the vocabulary afterwards begin with the log and the
    vocabulary before: no document and no stem is ever removed or moved in
    creation order, the number of vocabulary entries does not decrease,
    and a stem once known stays known. *)
Theorem calls_only_extend_log_and_vocabulary :
  forall (c : call) (s : NaiveBayes),
    extends s (snd (run_call tokenizeAndStem c s)) /\
    List.length (keys (features s)) <=
    List.length (keys (features (snd (run_call tokenizeAndStem c s)))) /\
    (forall k, get (features s) k <> None ->
               get (features (snd (run_call tokenizeAndStem c s))) k <> None).
Proof.
  intros c s.
  assert (H : extends s (snd (run_call tokenizeAndStem c s))).
  { destruct c as [doc l | ds l | | f l]; simpl.
    - apply addDocument_extends.
    - apply addDocuments_extends.
    - apply train_extends.
    - apply addExample_extends. }
  split; [exact H |]. destruct H as [_ (f & Hf)]. split.
  - rewrite !keys_length, <- !(length_map fst), Hf, length_app. lia.
  - intros k Hk. apply get_In_keys. rewrite Hf. apply in_or_app. left.
    now apply get_In_keys.
Qed.

End Growth.

(** ** What one example changes *)

Section ExampleEffect.

Import JsObject JsObjectFacts.

(** The keyed loop of [addExample]. *)
Lemma for_each_bump (l : string) (g : string -> string) :
  forall (ks : list string) (s : NaiveBayes) (o : t jsnum),
    get (classFeatures s) l = Some o ->
    exists o' : t jsnum,
      for_each ks (fun key => bump l (g key)) s =
      (Return tt, set_classFeatures (fun cf => set cf l o') s).
Proof.
  induction ks as [| k ks IH]; intros s o Ho; simpl.
  - exists o. unfold ret, set_classFeatures.
    rewrite (set_unchanged _ _ _ Ho). now destruct s.
  - rewrite (bind_Return _ _ _ _ _ (bump_run l (g k) o s Ho)).
    set (o1 := set o (g k) (bumped (smoothing s) (get o (g k)))).
    destruct (IH (set_classFeatures (fun cf => set cf l o1) s) o1)
      as (o' & Hrun); [simpl; apply get_set_same |].
    exists o'. now rewrite Hrun, set_classFeatures_twice.
Qed.

(** The state [addExample] leaves, for both forms of its argument. *)
Lemma addExample_shape (f : featureArg) (l : string) (s : NaiveBayes) :
  exists o' : t jsnum,
    addExample f l s =
    (Return tt,
     {| docs := docs s;
        lastAdded := lastAdded s;
        features := features s;
        classFeatures := set (classFeatures s) l o';
        classTotals :=
          match f with
          | FArray _ => set (classTotals s) l (incr (total_before s l))
          | FMapping _ =>
              match get (classFeatures s) l with
              | Some _ => classTotals s
              | None => set (classTotals s) l (Int 1)
              end
          end;
        totalExamples := totalExamples s + 1;
        smoothing := smoothing s |}).
Proof.
  unfold addExample, total_before. rewrite bind_gets.
  destruct (get (classFeatures s) l) as [o |] eqn:Hcf.
  - rewrite bind_ret, bind_modify. destruct f as [v | m].
    + rewrite bind_modify.
      set (s1 := set_classTotals _ _).
      destruct (while_bump v l (List.length v) s1 o Hcf) as (o' & Hrun & _).
      exists o'. rewrite Hrun. reflexivity.
    + set (s1 := set_totalExamples _ _).
      destruct (for_each_bump l
                  (fun key => match get m key with
                              | Some v => v
                              | None => "undefined"
                              end) (keys m) s1 o Hcf) as (o' & Hrun).
      exists o'. rewrite Hrun. reflexivity.
  - rewrite bind_bind, !bind_modify. destruct f as [v | m].
    + rewrite bind_modify.
      set (s1 := set_classTotals _ _).
      assert (H1 : get (classFeatures s1) l = Some empty)
        by (simpl; apply get_set_same).
      destruct (while_bump v l (List.length v) s1 empty H1)
        as (o' & Hrun & _).
      exists o'. rewrite Hrun. unfold s1, set_classFeatures. simpl.
      now rewrite !set_set, get_set_same.
    + set (s1 := set_totalExamples _ _).
      assert (H1 : get (classFeatures s1) l = Some empty)
        by (simpl; apply get_set_same).
      destruct (for_each_bump l
                  (fun key => match get m key with
                              | Some v => v
                              | None => "undefined"
                              end) (keys m) s1 empty H1) as (o' & Hrun).
      exists o'. rewrite Hrun. unfold s1, set_classFeatures. simpl.
      now rewrite !set_set.
Qed.



End ExampleEffect.

(** ** Logging documents *)

Section Logging.

Import JsObject JsObjectFacts.

Variable tokenizeAndStem : string -> list string.

Lemma for_each_app {A : Type} (l1 l2 : list A) (body : A -> M unit)
  (s : NaiveBayes) :
  for_each (l1 ++ l2) body s =
  bind (for_each l1 body) (fun _ => for_each l2 body) s.
Proof.
  revert s. induction l1 as [| x l1 IH]; intros s; simpl.
  - now rewrite bind_ret.
  - rewrite bind_bind.
    destruct (body x s) as [[[] | e] s1] eqn:E.
    + rewrite !(bind_Return _ _ _ _ _ E). apply IH.
    + now rewrite !(bind_Throw _ _ _ _ _ E).
Qed.

(** The state a logged document leaves. *)
Lemma addDocument_run (doc : jsval string) (stems : list string)
  (l : string) (s : NaiveBayes) :
  (exists c str, doc = JString (String c str) /\
                 stems = tokenizeAndStem (String c str)) \/
  (exists x a, doc = JArray (x :: a) /\ stems = x :: a) ->
  addDocument tokenizeAndStem doc l s =
  (Return tt,
   set_features (fun f => fold_left (fun f stem => set f stem 1%N) stems f)
     (set_docs
        (fun d => d ++ [{| doc_label := l; doc_value := JArray stems |}])
        s)).
Proof.
  intros [(c & str & -> & ->) | (x & a & -> & ->)];
    unfold addDocument, _size;
    cbn [_isArray _isString orb length_of String.length List.length
           not_size elements];
    rewrite bind_lift_Return; cbn [not_size];
    now rewrite bind_modify, bind_lift_Return, add_stems_run.
Qed.


Lemma addDocument_returns (doc : jsval string) (l : string)
  (s : NaiveBayes) :
  doc <> JNull ->
  exists s' : NaiveBayes,
    addDocument tokenizeAndStem doc l s = (Return tt, s').
Proof.
  intros Hn. destruct doc as [| | b | z | str | a |];
    try (eexists; reflexivity); [congruence | |].
  - destruct str as [| c str]; [eexists; reflexivity |].
    eexists. apply addDocument_run. left. eauto.
  - destruct a as [| x a]; [eexists; reflexivity |].
    eexists. apply addDocument_run. right. eauto.
Qed.

Lemma addDocuments_returns (ds : list (jsval string)) (l : string) :
  Forall (fun d => d <> JNull) ds ->
  forall s : NaiveBayes,
  exists s' : NaiveBayes,
    addDocuments tokenizeAndStem ds l s = (Return tt, s').
Proof.
  unfold addDocuments. induction 1 as [| d ds Hd _ IH]; intros s; simpl.
  - eexists. reflexivity.
  - destruct (addDocument_returns d l s Hd) as (s1 & H1).
    rewrite (bind_Return _ _ _ _ _ H1). apply IH.
Qed.

(** X5.  [addDocuments] gives up at the first [null] element: the
    documents before it have been logged (or skipped, when empty) exactly
    as by a call on them alone, the TypeError of [addDocument(null)]
    propagates, and nothing after the [null] is looked at.  Without a
    [null] element the call returns. *)
Theorem addDocuments_stops_at_null :
  forall (before : list (jsval string)) (l : string) (s : NaiveBayes),
    Forall (fun d => d <> JNull) before ->
    exists s1 : NaiveBayes,
      addDocuments tokenizeAndStem before l s = (Return tt, s1) /\
      forall after : list (jsval string),
        addDocuments tokenizeAndStem (before ++ JNull :: after) l s =
        (Throw TypeError, s1).
Proof.
  intros before l s Hb.
  destruct (addDocuments_returns before l Hb s) as (s1 & H1).
  exists s1. split; [exact H1 |]. intros after.
  unfold addDocuments in *. rewrite for_each_app.
  rewrite (bind_Return _ _ _ _ _ H1). reflexivity.
Qed.

(** The vector of a string is the vector of its stems. *)
Lemma docToFeatures_string (str : string) (s : NaiveBayes) :
  docToFeatures tokenizeAndStem (JString str) s =
  (Return (presence (keys (features s)) (tokenizeAndStem str)), s).
Proof. exact (docToFeatures_sequence tokenizeAndStem _ s). Qed.

Lemma presence_entry (enumeration doc : list string) (i : nat) (k : string) :
  nth_error enumeration i = Some k ->
  (In k doc -> nth_error (presence enumeration doc) i = Some 1%Z) /\
  (~ In k doc -> nth_error (presence enumeration doc) i = Some 0%Z).
Proof.
  intros Hk. unfold presence.
  rewrite nth_error_map, Hk. simpl.
  destruct (existsb (String.eqb k) doc) eqn:E; split; intros H;
    try reflexivity; exfalso.
  - apply H. apply existsb_exists in E as (x & Hx & Hxk).
    apply String.eqb_eq in Hxk. now subst.
  - assert (E' : existsb (String.eqb k) doc = true).
    { apply existsb_exists. exists k. split; [exact H |].
      apply String.eqb_refl. }
    congruence.
Qed.

(** X6.  For a string (stemmed first) or a sequence of stems,
    [docToFeatures] returns a vector with one entry per vocabulary
    property, following the [for ... in] order of the vocabulary object;
    the entry for a stem is 1 when the document contains the stem and 0
    when it does not.  An empty document gives the all-zero vector. *)
Theorem docToFeatures_presence_vector :
  forall (doc : jsval string) (stems : list string) (s : NaiveBayes),
    (doc = JArray stems \/
     exists str, doc = JString str /\ stems = tokenizeAndStem str) ->
    exists v : list Z,
      docToFeatures tokenizeAndStem doc s = (Return v, s) /\
      List.length v = List.length (features s) /\
      (forall i k, nth_error (keys (features s)) i = Some k ->
         (In k stems -> nth_error v i = Some 1%Z) /\
         (~ In k stems -> nth_error v i = Some 0%Z)).
Proof.
  intros doc stems s Hdoc.
  exists (presence (keys (features s)) stems). split; [| split].
  - destruct Hdoc as [-> | (str & -> & ->)].
    + apply docToFeatures_sequence.
    + apply docToFeatures_string.
  - unfold presence. rewrite length_map. apply keys_length.
  - intros i k. apply presence_entry.
Qed.

(** X7.  For a value that is neither a string nor an array,
    [docToFeatures] returns the empty vector while the vocabulary is empty
    and throws a TypeError as soon as the vocabulary has a stem, since the
    value has no [indexOf]. *)
Theorem docToFeatures_non_document :
  forall (doc : jsval string) (s : NaiveBayes),
    is_document doc = false ->
    (features s = empty ->
     docToFeatures tokenizeAndStem doc s = (Return [], s)) /\
    (features s <> empty ->
     docToFeatures tokenizeAndStem doc s = (Throw TypeError, s)).
Proof.
  intros doc s Hd. unfold docToFeatures. rewrite bind_gets. split.
  - intros ->. reflexivity.
  - intros Hne.
    destruct (keys (features s)) as [| k ks] eqn:E;
      [apply keys_nil in E; contradiction |].
    destruct doc; try discriminate; reflexivity.
Qed.

End Logging.

(** ** The top of the ranking *)

Section TopClass.

Import JsObject JsObjectFacts.

Context {Num : JSNumber}.
Variable tokenizeAndStem : string -> list string.

(** The ranking of a document is the sort of one entry per class, taken in
    the order [for ... in] visits the classes. *)
Lemma getClassifications_run (doc : jsval string) (s : NaiveBayes) :
  is_document doc = true ->
  exists ys : list classification,
    getClassifications tokenizeAndStem doc s =
    (Return (sort by_value ys), s) /\
    map label ys = keys (classFeatures s).
Proof.
  intros Hd.
  destruct (docToFeatures_document tokenizeAndStem doc s Hd) as (fv & Hfv).
  unfold getClassifications. rewrite bind_gets.
  set (f := fun className : string =>
              fv <- docToFeatures tokenizeAndStem doc ;;
              p <- probabilityOfClass (FArray fv) className ;;
              ret {| label := className; value := p |}).
  destruct (for_push_Forall2 f s (keys (classFeatures s)))
    as (ys & Hys & HF).
  { intros x Hx. apply (keys_In tokenizeAndStem) in Hx.
    destruct (probabilityOfClass_trained fv x s Hx) as (p & Hp).
    exists {| label := x; value := p |}. unfold f.
    now rewrite (bind_Return _ _ _ _ _ Hfv), (bind_Return _ _ _ _ _ Hp). }
  rewrite (bind_Return _ _ _ _ _ Hys).
  exists ys. split; [reflexivity |].
  clear Hys. induction HF as [| x y l l' Hxy HF IH]; simpl;
    [reflexivity |].
  rewrite IH. f_equal.
  unfold f in Hxy. rewrite (bind_Return _ _ _ _ _ Hfv) in Hxy.
  destruct (probabilityOfClass (FArray fv) x s) as [[p | e] s1] eqn:Ep.
  - rewrite (bind_Return _ _ _ _ _ Ep) in Hxy.
    unfold ret in Hxy. now injection Hxy as <- _.
  - rewrite (bind_Throw _ _ _ _ _ Ep) in Hxy. discriminate.
Qed.


Context {Laws : JSNumberLaws Num}.

(** On a trained classifier a document is classified as the first entry
    of its ranking. *)
Lemma classify_document_run (doc : jsval string) (s : NaiveBayes) :
  is_document doc = true ->
  classFeatures s <> empty ->
  exists (c : classification) (r : list classification),
    getClassifications tokenizeAndStem doc s = (Return (c :: r), s) /\
    classify tokenizeAndStem doc s = (Return (label c), s) /\
    In (label c) (keys (classFeatures s)) /\
    Sorted not_below (c :: r).
Proof.
  intros Hd Hne.
  destruct (getClassifications_run doc s Hd) as (ys & Hrun & Hl).
  destruct (sort by_value ys) as [| c r] eqn:E.
  - exfalso. apply Hne.
    apply (f_equal (@List.length _)) in E. rewrite sort_length in E.
    rewrite <- (length_map label), Hl, keys_length in E.
    now destruct (classFeatures s).
  - exists c, r. split; [exact Hrun |]. split; [| split].
    + unfold classify. rewrite (bind_Return _ _ _ _ _ Hrun). reflexivity.
    + rewrite <- Hl.
      apply (Permutation_in _ (Permutation_map label
                                  (sort_Permutation by_value ys))).
      rewrite E. now left.
    + rewrite <- E. apply sort_Sorted.
Qed.




End TopClass.

(** ** Scoring a class that was never trained *)

Section UntrainedLabel.

Import JsObject JsObjectFacts.

Context {Num : JSNumber}.



End UntrainedLabel.

(** ** Training as a fold over the pending documents *)

Section TrainFold.

Import JsObject JsObjectFacts.

Variable tokenizeAndStem : string -> list string.

Lemma skipn_nth_error {A : Type} (l : list A) (a : nat) (d : A) :
  nth_error l a = Some d -> skipn a l = d :: skipn (S a) l.
Proof.
  revert a. induction l as [| x l IH]; intros [| a]; simpl;
    try discriminate.
  - now intros [= ->].
  - intros H. now rewrite (IH a H).
Qed.

Lemma train_step_frame (s : NaiveBayes) (d : docObj) :
  docs (train_step s d) = docs s /\
  features (train_step s d) = features s /\
  lastAdded (train_step s d) = S (lastAdded s) /\
  totalExamples (train_step s d) = (totalExamples s + 1)%N /\
  map fst (classFeatures (train_step s d)) =
  observe (map fst (classFeatures s)) [doc_label d].
Proof.
  unfold train_step.
  destruct (addExample_shape
              (FArray (presence (keys (features s)) (stems_of d)))
              (doc_label d) s) as (o' & ->).
  simpl. repeat (split; [reflexivity |]).
  rewrite map_fst_set, get_existsb.
  destruct (get (classFeatures s) (doc_label d)); [| reflexivity].
  apply app_nil_r.
Qed.

Lemma train_body_run (i : nat) (d : docObj) (s : NaiveBayes) :
  docs_are_sequences s ->
  nth_error (docs s) i = Some d ->
  train_body tokenizeAndStem i s = (Return tt, train_step s d).
Proof.
  intros Hs Hd. unfold train_body, train_step, stems_of.
  rewrite bind_gets, Hd.
  unfold docs_are_sequences in Hs. rewrite Forall_forall in Hs.
  destruct (Hs d (nth_error_In _ _ Hd)) as (a & ->).
  rewrite (bind_Return _ _ _ _ _ (docToFeatures_sequence _ a s)).
  destruct (addExample_shape (FArray (presence (keys (features s)) a))
              (doc_label d) s) as (o' & Hrun).
  now rewrite (bind_Return _ _ _ _ _ Hrun), Hrun.
Qed.

Lemma train_step_docs_are_sequences (s : NaiveBayes) (d : docObj) :
  docs_are_sequences s -> docs_are_sequences (train_step s d).
Proof.
  unfold docs_are_sequences.
  now rewrite (proj1 (train_step_frame s d)).
Qed.

Lemma train_loop_fold :
  forall (n a : nat) (s : NaiveBayes),
    docs_are_sequences s ->
    n = List.length (docs s) - a ->
    for_each (seq a n) (train_body tokenizeAndStem) s =
    (Return tt, fold_left train_step (skipn a (docs s)) s).
Proof.
  induction n as [| n IH]; intros a s Hs Hn; simpl.
  - now rewrite skipn_all2 by lia.
  - destruct (nth_error (docs s) a) as [d |] eqn:Hd;
      [| apply nth_error_None in Hd; lia].
    rewrite (bind_Return _ _ _ _ _ (train_body_run a d s Hs Hd)).
    rewrite (skipn_nth_error _ _ _ Hd). simpl.
    rewrite <- (proj1 (train_step_frame s d)).
    apply IH.
    + now apply train_step_docs_are_sequences.
    + rewrite (proj1 (train_step_frame s d)). lia.
Qed.

(** [train] folds [train_step] over the pending documents. *)
Lemma train_is_fold (s : NaiveBayes) :
  docs_are_sequences s ->
  train tokenizeAndStem s = (Return tt, fold_left train_step (pending s) s).
Proof.
  intros Hs. rewrite train_unfold. now apply train_loop_fold.
Qed.

Lemma observe_app (v l1 l2 : list string) :
  observe v (l1 ++ l2) = observe (observe v l1) l2.
Proof.
  revert v. induction l1 as [| x l1 IH]; intros v; simpl; [reflexivity |].
  apply IH.
Qed.

Lemma fold_train_step_frame (ds : list docObj) :
  forall s : NaiveBayes,
    docs (fold_left train_step ds s) = docs s /\
    features (fold_left train_step ds s) = features s /\
    lastAdded (fold_left train_step ds s) = lastAdded s + List.length ds /\
    totalExamples (fold_left train_step ds s) =
    (totalExamples s + N.of_nat (List.length ds))%N /\
    map fst (classFeatures (fold_left train_step ds s)) =
    observe (map fst (classFeatures s)) (map doc_label ds).
Proof.
  induction ds as [| d ds IH]; intros s; simpl.
  - repeat split; lia.
  - destruct (IH (train_step s d)) as (H1 & H2 & H3 & H4 & H5).
    destruct (train_step_frame s d) as (F1 & F2 & F3 & F4 & F5).
    rewrite H1, H2, H3, H4, H5, F1, F2, F3, F4, F5.
    repeat split; lia.
Qed.

Lemma reachable_cursor (s : NaiveBayes) :
  reachable tokenizeAndStem s -> lastAdded s <= List.length (docs s).
Proof.
  induction 1 as [| s c Hr IH]; [simpl; lia |].
  destruct c as [doc l | ds l | | f l]; simpl.
  - pose proof (addDocument_extends tokenizeAndStem doc l s)
      as [(d & Hd) _].
    rewrite Hd, length_app.
    rewrite (addDocument_preserves tokenizeAndStem
               (fun s' => lastAdded s' = lastAdded s) doc l
               (fun g s' H => H) (fun g s' H => H) s eq_refl).
    lia.
  - pose proof (addDocuments_extends tokenizeAndStem ds l s)
      as [(d & Hd) _].
    rewrite Hd, length_app.
    rewrite (addDocuments_preserves tokenizeAndStem
               (fun s' => lastAdded s' = lastAdded s) ds l
               (fun g s' H => H) (fun g s' H => H) s eq_refl).
    lia.
  - destruct (train_returns tokenizeAndStem s
                (reachable_docs_are_sequences tokenizeAndStem s Hr))
      as (s' & Hrun & Hd & Hl).
    rewrite Hrun. simpl. rewrite Hd, Hl. lia.
  - destruct (addExample_shape f l s) as (o' & ->). exact IH.
Qed.


End TrainFold.

(** ** Classes and their totals *)

Section ClassTotals.

Import JsObject JsObjectFacts.

Variable tokenizeAndStem : string -> list string.












End ClassTotals.

(** ** The application's use of the classifier *)

Section Application.

Import JsObject JsObjectFacts.

Context {Num : JSNumber} {Laws : JSNumberLaws Num}.
Variable tokenizeAndStem : string -> list string.

(** A batch of non-empty strings is logged string by string. *)
Lemma addDocuments_strings (strs : list string) (l : string) :
  Forall (fun str => str <> "") strs ->
  forall s : NaiveBayes,
  exists s' : NaiveBayes,
    addDocuments tokenizeAndStem (map JString strs) l s = (Return tt, s') /\
    docs s' =
    docs s ++
    map (fun str =>
           {| doc_label := l; doc_value := JArray (tokenizeAndStem str) |})
      strs /\
    lastAdded s' = lastAdded s /\
    classFeatures s' = classFeatures s.
Proof.
  unfold addDocuments.
  induction 1 as [| str strs Hstr _ IH]; intros s; simpl.
  - exists s. rewrite app_nil_r. auto.
  - destruct str as [| c str]; [congruence |].
    rewrite (bind_Return _ _ _ _ _
               (addDocument_run tokenizeAndStem _ _ l s
                  (or_introl (ex_intro _ c (ex_intro _ str
                                              (conj eq_refl eq_refl)))))).
    destruct (IH (set_features
                    (fun f =>
                       fold_left (fun f stem => set f stem 1%N)
                         (tokenizeAndStem (String c str)) f)
                    (set_docs
                       (fun d =>
                          d ++
                          [{| doc_label := l;
                              doc_value :=
                                JArray (tokenizeAndStem (String c str)) |}])
                       s)))
      as (s' & Hrun & Hd & Hl & Hcf).
    exists s'. split; [exact Hrun |]. simpl in *.
    rewrite Hd, <- app_assoc. auto.
Qed.

Lemma chars_strings (sentence : string) :
  chars sentence =
  map JString
    (map (fun c => String c EmptyString) (list_ascii_of_string sentence)).
Proof. unfold chars. now rewrite map_map. Qed.


Lemma observe_known (v ls : list string) :
  Forall (fun l => In l v) ls -> observe v ls = v.
Proof.
  induction 1 as [| l ls Hl _ IH]; simpl; [reflexivity |].
  assert (E : existsb (String.eqb l) v = true).
  { apply existsb_exists. exists l. split; [exact Hl |].
    apply String.eqb_refl. }
  now rewrite E.
Qed.

Lemma skipn_app_length {A : Type} (l1 l2 : list A) :
  skipn (List.length l1) (l1 ++ l2) = l2.
Proof. induction l1; simpl; auto. Qed.

(** A batch of non-empty strings added to a reachable classifier. *)
Lemma add_batch (strs : list string) (l : string) (s : NaiveBayes) :
  Forall (fun str => str <> "") strs ->
  reachable tokenizeAndStem s ->
  exists s' : NaiveBayes,
    addDocuments tokenizeAndStem (map JString strs) l s = (Return tt, s') /\
    reachable tokenizeAndStem s' /\
    docs s' =
    docs s ++
    map (fun str =>
           {| doc_label := l; doc_value := JArray (tokenizeAndStem str) |})
      strs /\
    lastAdded s' = lastAdded s /\
    classFeatures s' = classFeatures s.
Proof.
  intros Hs Hr.
  destruct (addDocuments_strings strs l Hs s) as (s' & Hrun & H).
  exists s'. split; [exact Hrun |]. split; [| exact H].
  replace s' with
    (snd (run_call tokenizeAndStem (CallAddDocuments (map JString strs) l) s))
    by (simpl; now rewrite Hrun).
  now constructor.
Qed.

(** [train] on a reachable classifier. *)
Lemma train_after (s : NaiveBayes) :
  reachable tokenizeAndStem s ->
  exists s' : NaiveBayes,
    train tokenizeAndStem s = (Return tt, s') /\
    reachable tokenizeAndStem s' /\
    lastAdded s' = List.length (docs s') /\
    map fst (classFeatures s') =
    observe (map fst (classFeatures s)) (map doc_label (pending s)).
Proof.
  intros Hr.
  pose proof (train_is_fold tokenizeAndStem s
                (reachable_docs_are_sequences tokenizeAndStem s Hr)) as Hrun.
  exists (fold_left train_step (pending s) s).
  split; [exact Hrun |].
  destruct (fold_train_step_frame (pending s) s) as (H1 & _ & H3 & _ & H5).
  split; [| split; [| exact H5]].
  - replace (fold_left train_step (pending s) s) with
      (snd (run_call tokenizeAndStem CallTrain s))
      by (simpl; now rewrite Hrun).
    now constructor.
  - rewrite H1, H3. unfold pending. rewrite length_skipn.
    pose proof (reachable_cursor tokenizeAndStem s Hr). lia.
Qed.

Lemma componentWillMount_invariant :
  app_invariant tokenizeAndStem
    (snd (componentWillMount tokenizeAndStem constructor)).
Proof.
  unfold componentWillMount. cbn [addDocuments_any].
  destruct (add_batch positiveDocuments "positive" constructor)
    as (s1 & Hrun1 & Hr1 & Hd1 & Hl1 & Hc1);
    [repeat constructor; discriminate | constructor |].
  destruct (add_batch negativeDocuments "negative" s1)
    as (s2 & Hrun2 & Hr2 & Hd2 & Hl2 & Hc2);
    [repeat constructor; discriminate | exact Hr1 |].
  destruct (train_after s2 Hr2) as (s3 & Hrun3 & Hr3 & Hl3 & Hc3).
  rewrite (bind_Return _ _ _ _ _ Hrun1), (bind_Return _ _ _ _ _ Hrun2),
    Hrun3.
  unfold app_invariant. cbn [snd].
  split; [exact Hr3 |]. split; [| exact Hl3].
  rewrite Hc3, Hc2, Hc1. unfold pending. rewrite Hl2, Hl1, Hd2, Hd1.
  reflexivity.
Qed.

Lemma _onAdd_invariant (type sentence : string) (s : NaiveBayes) :
  In type ["positive"; "negative"] ->
  app_invariant tokenizeAndStem s ->
  app_invariant tokenizeAndStem (snd (_onAdd tokenizeAndStem type sentence s)).
Proof.
  intros Ht (Hr & Hc & Hl). unfold _onAdd. cbn [addDocuments_any].
  rewrite chars_strings.
  destruct (add_batch
              (map (fun c => String c EmptyString)
                 (list_ascii_of_string sentence)) type s)
    as (s1 & Hrun1 & Hr1 & Hd1 & Hl1 & Hc1);
    [apply Forall_map, Forall_forall; intros c _; discriminate
    | exact Hr |].
  destruct (train_after s1 Hr1) as (s2 & Hrun2 & Hr2 & Hl2 & Hc2).
  rewrite (bind_Return _ _ _ _ _ Hrun1), Hrun2.
  unfold app_invariant. cbn [snd].
  split; [exact Hr2 |]. split; [| exact Hl2].
  rewrite Hc2, Hc1, Hc. unfold pending.
  rewrite Hl1, Hl, Hd1, skipn_app_length, !map_map. simpl.
  apply observe_known, Forall_map, Forall_forall. intros c _. exact Ht.
Qed.

Lemma app_state_invariant (s : NaiveBayes) :
  app_state tokenizeAndStem s -> app_invariant tokenizeAndStem s.
Proof.
  induction 1 as [| s sentence _ IH | s sentence _ IH].
  - apply componentWillMount_invariant.
  - apply _onAdd_invariant; [simpl; auto | exact IH].
  - apply _onAdd_invariant; [simpl; auto | exact IH].
Qed.

(** X15.  The classifier of the application, mounted and then fed through
    the two add buttons any number of times, always has exactly the two
    classes positive and negative, in that order, and has trained every
    logged document.  Checking a sentence therefore never raises the
    untrained-model error nor any other: [classify] returns one of the
    two labels and [_onCheck] yields the corresponding message. *)
Theorem app_check_always_answers :
  forall s : NaiveBayes,
    app_state tokenizeAndStem s ->
    map fst (classFeatures s) = ["positive"; "negative"] /\
    lastAdded s = List.length (docs s) /\
    forall sentence : string,
    exists result : string,
      classify tokenizeAndStem (JString sentence) s = (Return result, s) /\
      (result = "positive" \/ result = "negative") /\
      _onCheck tokenizeAndStem sentence s =
      (Return (if String.eqb result "positive"
               then "Предложение позитивное"
               else "Предложение негативное"), s).
Proof.
  intros s Hs. destruct (app_state_invariant s Hs) as (_ & Hc & Hl).
  split; [exact Hc |]. split; [exact Hl |]. intros sentence.
  destruct (classify_document_run tokenizeAndStem (JString sentence) s)
    as (c & r & _ & Hrun & Hin & _);
    [reflexivity | intros E; rewrite E in Hc; discriminate |].
  exists (label c). split; [exact Hrun |]. split.
  - rewrite keys_no_index in Hin
      by (rewrite Hc; repeat constructor).
    rewrite Hc in Hin. simpl in Hin. intuition.
  - unfold _onCheck. now rewrite (bind_Return _ _ _ _ _ Hrun).
Qed.

End Application.

(** ** Concrete runs of the further properties *)



(** A batch with a [null] in the middle. *)
Lemma addDocuments_stops_at_null_run :
  Forall (fun d : jsval string => d <> JNull) [JString "i love cats"] /\
  exists s1 : NaiveBayes,
    addDocuments words [JString "i love cats"] "pos" constructor =
    (Return tt, s1) /\
    addDocuments words
      ([JString "i love cats"] ++ JNull :: [JString "i love dogs"]) "pos"
      constructor =
    (Throw TypeError, s1).
Proof.
  assert (H : Forall (fun d : jsval string => d <> JNull)
                [JString "i love cats"])
    by (repeat constructor; discriminate).
  split; [exact H |].
  destruct (addDocuments_stops_at_null words [JString "i love cats"] "pos"
              constructor H) as (s1 & H1 & H2).
  exists s1. split; [exact H1 | apply H2].
Defined.

(** The vector of a string over the trained vocabulary. *)
Lemma docToFeatures_presence_vector_run :
  ((JString "i hate cats" : jsval string) = JArray (words "i hate cats") \/
   exists str, (JString "i hate cats" : jsval string) = JString str /\
               words "i hate cats" = words str) /\
  exists v : list Z,
    docToFeatures words (JString "i hate cats") trained_pos =
    (Return v, trained_pos) /\
    List.length v = List.length (features trained_pos).
Proof.
  assert (H : (JString "i hate cats" : jsval string) =
              JArray (words "i hate cats") \/
              exists str, (JString "i hate cats" : jsval string) =
                          JString str /\
                          words "i hate cats" = words str)
    by (right; exists "i hate cats"; split; reflexivity).
  split; [exact H |].
  destruct (docToFeatures_presence_vector words (JString "i hate cats")
              (words "i hate cats") trained_pos H) as (v & Hv & Hl & _).
  exists v. split; assumption.
Defined.

(** A number in place of a document, on the trained classifier. *)
Lemma docToFeatures_non_document_run :
  is_document (JNumber 5 : jsval string) = false /\
  features trained_pos <> JsObject.empty /\
  docToFeatures words (JNumber 5) trained_pos = (Throw TypeError, trained_pos).
Proof.
  assert (H : features trained_pos <> JsObject.empty)
    by (vm_compute; discriminate).
  split; [reflexivity |]. split; [exact H |].
  exact (proj2 (docToFeatures_non_document words (JNumber 5) trained_pos
                  eq_refl) H).
Defined.







(** The application right after mounting. *)
Lemma app_check_always_answers_run :
  app_state words (snd (componentWillMount words constructor)) /\
  map fst (classFeatures (snd (componentWillMount words constructor))) =
  ["positive"; "negative"] /\
  exists result : string,
    @classify R_number words (JString "i love parrots")
      (snd (componentWillMount words constructor)) =
    (Return result, snd (componentWillMount words constructor)) /\
    (result = "positive" \/ result = "negative").
Proof.
  split; [exact (app_mounted words) |].
  destruct (@app_check_always_answers R_number R_number_laws words
              (snd (componentWillMount words constructor))
              (app_mounted words)) as (Hc & _ & Hcheck).
  split; [exact Hc |].
  destruct (Hcheck "i love parrots") as (result & Hrun & Hres & _).
  exists result. split; assumption.
Defined.
